(** * Weather lookup service

    A shallow embedding of the server-side lookup endpoint
    ([GET] in the weather route: cache check, ordered provider fallback,
    cache refresh), of its three provider adapters
    ([getWeatherFromOpenWeather], [getWeatherFromWeatherAPI],
    [getWeatherFromWttrIn]), of the display client ([handleSubmit] and the
    expressions of the weather card) and of the two earlier versions of
    the route, which ask wttr.in only.

    The JavaScript runtime the code relies on (numbers, dynamically typed
    JSON values, property access, conversions and the exceptions they
    raise) is modelled in [Module JS].  Two idealisations are made there
    and used consistently:
    - a finite number is an exact decimal [mant * 10 ^ expo] (every JSON
      number literal is one, and the program only multiplies, adds,
      subtracts, rounds and divides by ten), so no binary64 rounding,
      overflow or negative zero is modelled; statements that bound a
      computed number against an exact value therefore carry a bound on
      the input and a margin under which they hold of binary64 arithmetic
      as well;
    - a string is its UTF-8 byte sequence, hence always well formed: a lone
      surrogate, on which [encodeURIComponent] throws, cannot occur (nor
      can it in a query parameter the server has decoded). *)

From Stdlib Require Import ZArith QArith Qround Qabs Qpower String Ascii List Lia Bool.
From Stdlib Require Import DecimalString Lqa.
From stdpp Require Import gmap strings.

Set Warnings "-register-all".
Local Open Scope Z_scope.

Module JS.

(** ** Numbers *)

Record dec := Dec { mant : Z; expo : Z }.

Inductive number :=
| Fin (d : dec)
| NaN
| PosInf
| NegInf.

(** The rational a decimal denotes. *)
Definition Qof (d : dec) : Q := (inject_Z (mant d) * Qpower 10 (expo d))%Q.

Definition of_Z (z : Z) : number := Fin (Dec z 0).

Definition dec_mul (a b : dec) : dec := Dec (mant a * mant b) (expo a + expo b).

Definition align (d : dec) (e : Z) : Z := mant d * 10 ^ (expo d - e).

Definition dec_add (a b : dec) : dec :=
  let e := Z.min (expo a) (expo b) in Dec (align a e + align b e) e.

Definition sign (x : number) : Z :=
  match x with
  | Fin d => Z.sgn (mant d)
  | PosInf => 1
  | NegInf => -1
  | NaN => 0
  end.

Definition inf_of_sign (s : Z) : number :=
  match s with
  | Z0 => NaN
  | Zpos _ => PosInf
  | Zneg _ => NegInf
  end.

(** [x * y] *)
Definition num_mul (x y : number) : number :=
  match x, y with
  | Fin a, Fin b => Fin (dec_mul a b)
  | NaN, _ | _, NaN => NaN
  | _, _ => inf_of_sign (sign x * sign y)
  end.

Definition num_neg (x : number) : number :=
  match x with
  | Fin d => Fin (Dec (- mant d) (expo d))
  | NaN => NaN
  | PosInf => NegInf
  | NegInf => PosInf
  end.

(** [x + y] on numbers *)
Definition num_add (x y : number) : number :=
  match x, y with
  | Fin a, Fin b => Fin (dec_add a b)
  | NaN, _ | _, NaN => NaN
  | PosInf, NegInf | NegInf, PosInf => NaN
  | PosInf, _ | _, PosInf => PosInf
  | NegInf, _ | _, NegInf => NegInf
  end.

(** [x - y] *)
Definition num_sub (x y : number) : number := num_add x (num_neg y).

(** [x / 10], the only division the program performs. *)
Definition num_div10 (x : number) : number :=
  match x with
  | Fin d => Fin (Dec (mant d) (expo d - 1))
  | other => other
  end.

(** [Math.round]: the nearest integer, ties towards +Infinity, that is
    floor(x + 1/2); NaN and the infinities are returned as they are. *)
Definition Math_round (x : number) : number :=
  match x with
  | Fin d => Fin (Dec (Qfloor (Qof d + (1 # 2))) 0)
  | other => other
  end.

(** Numeric comparison of two numbers ([NaN] equals nothing). *)
Definition num_eqb (x y : number) : bool :=
  match x, y with
  | Fin a, Fin b => Qeq_bool (Qof a) (Qof b)
  | PosInf, PosInf | NegInf, NegInf => true
  | _, _ => false
  end.

Definition is_zero (x : number) : bool :=
  match x with
  | Fin d => mant d =? 0
  | _ => false
  end.

(** *** Number to string ([Number::toString], radix 10) *)

Fixpoint strip_zeros (fuel : nat) (m e : Z) : Z * Z :=
  match fuel with
  | O => (m, e)
  | S f => if m mod 10 =? 0 then strip_zeros f (m / 10) (e + 1) else (m, e)
  end.

Definition digits (m : Z) : string :=
  match m with
  | Zpos p => NilEmpty.string_of_uint (Pos.to_uint p)
  | _ => "0"
  end.

Fixpoint zeros (n : nat) : string :=
  match n with
  | O => ""
  | S k => String "0" (zeros k)
  end.

Definition dec_to_string (d : dec) : string :=
  if mant d =? 0 then "0"
  else
    let a := Z.abs (mant d) in
    let '(s, e) := strip_zeros (Z.to_nat (Z.log2 a) + 1) a (expo d) in
    let ds := digits s in
    let k := Z.of_nat (String.length ds) in
    let n := k + e in
    let body :=
      if (k <=? n) && (n <=? 21) then
        ds +:+ zeros (Z.to_nat (n - k))
      else if (0 <? n) && (n <=? 21) then
        substring 0 (Z.to_nat n) ds +:+ "." +:+
        substring (Z.to_nat n) (Z.to_nat (k - n)) ds
      else if (-6 <? n) && (n <=? 0) then
        "0." +:+ zeros (Z.to_nat (- n)) +:+ ds
      else
        let es := (if n - 1 <? 0 then "-" else "+") +:+ digits (Z.abs (n - 1)) in
        if k =? 1 then ds +:+ "e" +:+ es
        else substring 0 1 ds +:+ "." +:+
             substring 1 (Z.to_nat (k - 1)) ds +:+ "e" +:+ es
    in if mant d <? 0 then "-" +:+ body else body.

Definition NumberToString (x : number) : string :=
  match x with
  | Fin d => dec_to_string d
  | NaN => "NaN"
  | PosInf => "Infinity"
  | NegInf => "-Infinity"
  end.

(** *** Strings to numbers *)

Definition code (c : ascii) : Z := Z.of_N (N_of_ascii c).

(** Length in bytes of the white space or line terminator code point a byte
    sequence starts with (0 when it starts with none): TAB, LF, VT, FF, CR,
    SP, U+00A0, U+1680, U+2000..U+200A, U+2028, U+2029, U+202F, U+205F,
    U+3000 and U+FEFF. *)
Definition ws_len (l : list ascii) : nat :=
  match map code l with
  | 9 :: _ | 10 :: _ | 11 :: _ | 12 :: _ | 13 :: _ | 32 :: _ => 1%nat
  | 194 :: 160 :: _ => 2%nat
  | 225 :: 154 :: 128 :: _ => 3%nat
  | 226 :: 128 :: b :: _ =>
      if ((128 <=? b) && (b <=? 138)) || (b =? 168) || (b =? 169) || (b =? 175)
      then 3%nat else 0%nat
  | 226 :: 129 :: 159 :: _ => 3%nat
  | 227 :: 128 :: 128 :: _ => 3%nat
  | 239 :: 187 :: 191 :: _ => 3%nat
  | _ => 0%nat
  end.

Fixpoint trim_start_fuel (fuel : nat) (l : list ascii) : list ascii :=
  match fuel with
  | O => l
  | S f =>
      match ws_len l with
      | O => l
      | n => trim_start_fuel f (drop n l)
      end
  end.

Definition trim_start (l : list ascii) : list ascii :=
  trim_start_fuel (length l) l.

Fixpoint trim_end (l : list ascii) : list ascii :=
  match l with
  | [] => []
  | c :: r =>
      match trim_start l with
      | [] => []
      | _ => c :: trim_end r
      end
  end.

(** [String.prototype.trim] *)
Definition trim (s : string) : string :=
  string_of_list_ascii (trim_end (trim_start (list_ascii_of_string s))).

Definition digit_val (radix : Z) (c : ascii) : option Z :=
  let n := code c in
  let v := if (48 <=? n) && (n <=? 57) then n - 48
           else if (97 <=? n) && (n <=? 102) then n - 87
           else if (65 <=? n) && (n <=? 70) then n - 55
           else radix in
  if v <? radix then Some v else None.

(** Reads the longest run of digits: its value, its length and the rest. *)
Fixpoint scan_digits (radix : Z) (l : list ascii) (acc cnt : Z) : Z * Z * list ascii :=
  match l with
  | c :: r =>
      match digit_val radix c with
      | Some v => scan_digits radix r (radix * acc + v) (cnt + 1)
      | None => (acc, cnt, l)
      end
  | [] => (acc, cnt, [])
  end.

(** An optional ExponentPart: [e] or [E], an optional sign, digits. *)
Definition scan_exponent (l : list ascii) : Z * list ascii :=
  match l with
  | c :: r =>
      if (code c =? 101) || (code c =? 69) then
        let '(sg, r') :=
          match r with
          | s :: r1 =>
              if code s =? 43 then (1, r1)
              else if code s =? 45 then (-1, r1)
              else (1, r)
          | [] => (1, r)
          end in
        let '(v, cnt, rest) := scan_digits 10 r' 0 0 in
        if 0 <? cnt then (sg * v, rest) else (0, l)
      else (0, l)
  | [] => (0, l)
  end.

Definition Infinity_chars : list ascii := list_ascii_of_string "Infinity".

(** The longest prefix that is a StrUnsignedDecimalLiteral. *)
Definition scan_unsigned (l : list ascii) : option (number * list ascii) :=
  if bool_decide (take 8 l = Infinity_chars) then Some (PosInf, drop 8 l)
  else
    let '(ip, icnt, r1) := scan_digits 10 l 0 0 in
    match r1 with
    | c :: r2 =>
        if code c =? 46 then
          let '(fp, fcnt, r3) := scan_digits 10 r2 0 0 in
          if (0 <? icnt) || (0 <? fcnt) then
            let '(ex, r4) := scan_exponent r3 in
            Some (Fin (Dec (ip * 10 ^ fcnt + fp) (ex - fcnt)), r4)
          else None
        else if 0 <? icnt then
          let '(ex, r4) := scan_exponent r1 in Some (Fin (Dec ip ex), r4)
        else None
    | [] => if 0 <? icnt then Some (Fin (Dec ip 0), []) else None
    end.

(** The longest prefix that is a StrDecimalLiteral. *)
Definition scan_decimal (l : list ascii) : option (number * list ascii) :=
  match l with
  | c :: r =>
      if code c =? 43 then scan_unsigned r
      else if code c =? 45 then
        match scan_unsigned r with
        | Some (x, rest) => Some (num_neg x, rest)
        | None => None
        end
      else scan_unsigned l
  | [] => None
  end.

(** [0x], [0o] and [0b] integer literals, the whole string. *)
Definition scan_radix (l : list ascii) : option number :=
  match l with
  | z :: x :: r =>
      let radix :=
        if (code x =? 120) || (code x =? 88) then 16
        else if (code x =? 111) || (code x =? 79) then 8
        else if (code x =? 98) || (code x =? 66) then 2
        else 0 in
      if (code z =? 48) && (0 <? radix) then
        match scan_digits radix r 0 0 with
        | (v, cnt, []) => if 0 <? cnt then Some (of_Z v) else None
        | _ => None
        end
      else None
  | _ => None
  end.

(** [parseFloat] on a string. *)
Definition parseFloat_string (s : string) : number :=
  match scan_decimal (trim_start (list_ascii_of_string s)) with
  | Some (x, _) => x
  | None => NaN
  end.

(** StringToNumber, the conversion [ToNumber] applies to a string. *)
Definition StringToNumber (s : string) : number :=
  match list_ascii_of_string (trim s) with
  | [] => of_Z 0
  | t =>
      match scan_decimal t with
      | Some (x, []) => x
      | _ =>
          match scan_radix t with
          | Some x => x
          | None => NaN
          end
      end
  end.

(** [encodeURIComponent]: every byte outside A-Z a-z 0-9 - _ . ! ~ * ' ( )
    is written as a percent sign and two upper-case hexadecimal digits. *)
Definition unreserved (c : ascii) : bool :=
  let n := code c in
  ((65 <=? n) && (n <=? 90)) || ((97 <=? n) && (n <=? 122)) ||
  ((48 <=? n) && (n <=? 57)) ||
  bool_decide (n ∈ [45; 95; 46; 33; 126; 42; 39; 40; 41]).

Definition hex_digit (n : Z) : ascii :=
  ascii_of_N (Z.to_N (if n <? 10 then 48 + n else 55 + n)).

Fixpoint encodeURIComponent (s : string) : string :=
  match s with
  | EmptyString => EmptyString
  | String c r =>
      if unreserved c then String c (encodeURIComponent r)
      else String "%" (String (hex_digit (code c / 16))
             (String (hex_digit (code c mod 16)) (encodeURIComponent r)))
  end.

(** ** Values *)

(** What [response.json()] can return, and [undefined], which reading an
    absent property yields.  An object is its list of properties, with one
    binding for each name. *)
Inductive value :=
| VUndef
| VNull
| VBool (b : bool)
| VNum (n : number)
| VStr (s : string)
| VArr (items : list value)
| VObj (fields : list (string * value)).

Inductive exn :=
| Error (message : string)   (* [throw new Error(message)] *)
| TypeError                  (* a property read on [null] or [undefined]; an object
                                that cannot be converted to a primitive value *)
| SyntaxError                (* [response.json()] on a body that is not JSON *)
| FetchRejected.             (* [fetch] rejected: network failure, or the abort of the timeout *)

Inductive completion (A : Type) :=
| Normal (a : A)
| Throw (e : exn).
Arguments Normal {A} a.
Arguments Throw {A} e.

(** Evaluation goes on with the value of a normal completion and stops at
    an exception. *)
Definition bind_c {A B} (c : completion A) (k : A -> completion B) : completion B :=
  match c with
  | Normal a => k a
  | Throw e => Throw e
  end.

Declare Scope js_scope.
Delimit Scope js_scope with js.
Notation "'let!' x ':=' c 'in' k" := (bind_c c (fun x => k))
  (at level 100, x name, c at next level, right associativity) : js_scope.
Local Open Scope js_scope.

Definition nullish (v : value) : bool :=
  match v with
  | VUndef | VNull => true
  | _ => false
  end.

Fixpoint lookup_field (k : string) (fs : list (string * value)) : value :=
  match fs with
  | [] => VUndef
  | (k', v) :: r => if String.eqb k k' then v else lookup_field k r
  end.

(** The first code point of a string, by the length its lead byte announces. *)
Definition first_char (s : string) : string :=
  match s with
  | EmptyString => EmptyString
  | String c _ =>
      let n := code c in
      substring 0 (if n <? 192 then 1 else if n <? 224 then 2
                   else if n <? 240 then 3 else 4) s
  end.

(** [v.k] on a value that is neither [null] nor [undefined], for the
    property names this program reads (none of them is defined on strings,
    numbers, booleans or arrays). *)
Definition prop (v : value) (k : string) : value :=
  match v with
  | VObj fs => lookup_field k fs
  | _ => VUndef
  end.

(** [v[0]] on a value that is neither [null] nor [undefined]. *)
Definition prop0 (v : value) : value :=
  match v with
  | VArr (x :: _) => x
  | VStr (String _ _ as s) => VStr (first_char s)
  | VObj fs => lookup_field "0" fs
  | _ => VUndef
  end.

(** [v.k] *)
Definition get (v : value) (k : string) : completion value :=
  if nullish v then Throw TypeError else Normal (prop v k).

(** [v[0]] *)
Definition get0 (v : value) : completion value :=
  if nullish v then Throw TypeError else Normal (prop0 v).

(** [v?.k] and [v?.[0]] *)
Definition opt_get (v : value) (k : string) : value :=
  if nullish v then VUndef else prop v k.

Definition opt_get0 (v : value) : value :=
  if nullish v then VUndef else prop0 v.

Definition truthy (v : value) : bool :=
  match v with
  | VUndef | VNull => false
  | VBool b => b
  | VNum NaN => false
  | VNum n => negb (is_zero n)
  | VStr s => negb (String.eqb s "")
  | VArr _ | VObj _ => true
  end.

(** [a || b] *)
Definition or_ (a b : value) : value := if truthy a then a else b.

(** Whether an object has a property of its own with the name [k]. *)
Definition has_own (k : string) (fs : list (string * value)) : bool :=
  existsb (fun kv => String.eqb k kv.1) fs.

(** ToString.  An array is joined ([null] and [undefined] elements count as
    the empty string).  A plain object is converted by the [toString] it
    finds: [Object.prototype.toString], unless the object has a property
    [toString] of its own, which, coming from JSON, is no function: then
    [valueOf] (which returns the object) does not help either and the
    conversion throws a TypeError. *)
Fixpoint ToString (v : value) : completion string :=
  match v with
  | VUndef => Normal "undefined"
  | VNull => Normal "null"
  | VBool true => Normal "true"
  | VBool false => Normal "false"
  | VNum n => Normal (NumberToString n)
  | VStr s => Normal s
  | VArr l =>
      (fix join (l : list value) : completion string :=
         match l with
         | [] => Normal ""
         | x :: r =>
             let! sx := match x with
                        | VUndef | VNull => Normal ""
                        | _ => ToString x
                        end in
             match r with
             | [] => Normal sx
             | _ => let! sr := join r in Normal (sx +:+ "," +:+ sr)
             end
         end) l
  | VObj fs =>
      if has_own "toString" fs then Throw TypeError else Normal "[object Object]"
  end.

(** ToPrimitive: arrays and plain objects become their string (for them
    [valueOf] returns the object itself, so that [toString] decides with
    either hint). *)
Definition ToPrimitive (v : value) : completion value :=
  match v with
  | VArr _ | VObj _ => let! s := ToString v in Normal (VStr s)
  | _ => Normal v
  end.

Definition ToNumber (v : value) : completion number :=
  match v with
  | VUndef => Normal NaN
  | VNull => Normal (of_Z 0)
  | VBool b => Normal (of_Z (if b then 1 else 0))
  | VNum n => Normal n
  | VStr s => Normal (StringToNumber s)
  | VArr _ | VObj _ => let! s := ToString v in Normal (StringToNumber s)
  end.

(** [a + b]: concatenation as soon as one side is a string. *)
Definition js_add (a b : value) : completion value :=
  let! pa := ToPrimitive a in
  let! pb := ToPrimitive b in
  match pa, pb with
  | VStr _, _ | _, VStr _ =>
      let! sa := ToString pa in
      let! sb := ToString pb in
      Normal (VStr (sa +:+ sb))
  | _, _ =>
      let! na := ToNumber pa in
      let! nb := ToNumber pb in
      Normal (VNum (num_add na nb))
  end.

(** [a - b] and [a * b] *)
Definition js_sub (a b : value) : completion number :=
  let! x := ToNumber a in
  let! y := ToNumber b in
  Normal (num_sub x y).

Definition js_mul (a b : value) : completion number :=
  let! x := ToNumber a in
  let! y := ToNumber b in
  Normal (num_mul x y).

(** [parseFloat(v)] *)
Definition parseFloat (v : value) : completion number :=
  let! s := ToString v in Normal (parseFloat_string s).

(** Number literals of the program. *)
Definition lit (z : Z) : value := VNum (of_Z z).
Definition num_0_27778 : number := Fin (Dec 27778 (-5)).
Definition lit_0_27778 : value := VNum num_0_27778.

End JS.
Import JS.

(** * The lookup service *)

(** ** Data model *)

Record MainData := {
  temp : number;
  feels_like : number;
  humidity : value;
  temp_min : number;
  temp_max : number
}.

Record WeatherItem := {
  weather_main : value;
  description : value;
  icon : value
}.

Record WindData := { speed : number }.

Record WeatherData := {
  name : value;
  main : MainData;
  weather : list WeatherItem;
  wind : WindData
}.

Record CacheData := {
  data : WeatherData;
  timestamp : Z
}.

Definition CACHE_DURATION : Z := 5 * 60 * 1000.

(** ** The world a request runs in *)

Record ProcessEnv := {
  OPENWEATHER_API_KEY : option string;
  WEATHERAPI_KEY : option string
}.

Record FetchOptions := { headers : list (string * string) }.

Record FetchCall := {
  url : string;
  options : FetchOptions;
  timeout : Z
}.

(** What a call of [fetch] comes back with: a rejection, or a response with
    its status and, when the body is JSON, the parsed body. *)
Inductive FetchResult :=
| Rejected
| Responded (status : Z) (json : option value).

(** The network answers each call after some milliseconds. *)
Record World := {
  env : ProcessEnv;
  fetch : FetchCall -> Z * FetchResult
}.

Inductive Event :=
| EvFetch (c : FetchCall)               (* a network call *)
| EvInvoke (api : string)               (* the fallback loop calls an adapter *)
| EvWarn (api : string) (e : exn).      (* [console.warn] of a failed adapter *)

(** The module-level [cache], the wall clock and what has happened so far. *)
Record State := {
  cache : gmap string CacheData;
  clock : Z;
  trace : list Event
}.

(** ** Computations: state, and completion by value or by exception *)

Definition M (A : Type) : Type := State -> completion A * State.

Definition ret {A} (a : A) : M A := fun s => (Normal a, s).

Definition throw {A} (e : exn) : M A := fun s => (Throw e, s).

Definition bind {A B} (m : M A) (k : A -> M B) : M B :=
  fun s =>
    match m s with
    | (Normal a, s') => k a s'
    | (Throw e, s') => (Throw e, s')
    end.

Definition try_catch {A} (m : M A) (handler : exn -> M A) : M A :=
  fun s =>
    match m s with
    | (Normal a, s') => (Normal a, s')
    | (Throw e, s') => handler e s'
    end.

Definition lift {A} (c : completion A) : M A := fun s => (c, s).

Notation "x <- m ;; k" := (bind m (fun x => k))
  (at level 100, m at next level, right associativity) : js_scope.
Notation "m ;; k" := (bind m (fun _ => k))
  (at level 100, right associativity) : js_scope.
Local Open Scope js_scope.

Definition log (e : Event) : M unit :=
  fun s => (Normal tt, {| cache := cache s; clock := clock s; trace := trace s ++ [e] |}).

Definition Date_now : M Z := fun s => (Normal (clock s), s).

Definition cache_get (k : string) : M (option CacheData) :=
  fun s => (Normal (cache s !! k), s).

Definition cache_set (k : string) (v : CacheData) : M unit :=
  fun s => (Normal tt, {| cache := <[k := v]> (cache s); clock := clock s; trace := trace s |}).

Definition console_warn (api : string) (e : exn) : M unit := log (EvWarn api e).

(** ** Responses of [fetch] *)

Record Response := {
  status : Z;
  body : option value
}.

Definition ok (r : Response) : bool := (200 <=? status r) && (status r <=? 299).

Definition response_json (r : Response) : M value :=
  match body r with
  | Some v => ret v
  | None => throw SyntaxError
  end.

Definition fetchWithTimeout (w : World) (url : string) (options : FetchOptions)
    (timeout : Z) : M Response :=
  fun s =>
    let c := {| url := url; options := options; timeout := timeout |} in
    let '(elapsed, r) := fetch w c in
    let s' := {| cache := cache s; clock := clock s + elapsed;
                 trace := trace s ++ [EvFetch c] |} in
    match r with
    | Rejected => (Throw FetchRejected, s')
    | Responded st b => (Normal {| status := st; body := b |}, s')
    end.

Definition default_timeout : Z := 5000.
Definition no_options : FetchOptions := {| headers := [] |}.

(** [`${status}`] *)
Definition status_text (r : Response) : string := NumberToString (of_Z (status r)).

(** ** Provider adapters *)

Definition get2 (v : value) (a b : string) : completion value :=
  let! x := get v a in get x b.

Definition get3 (v : value) (a b c : string) : completion value :=
  let! x := get2 v a b in get x c.

(** [data.weather[0]] *)
Definition weather0 (data : value) : completion value :=
  let! ws := get data "weather" in get0 ws.

(** The object [getWeatherFromOpenWeather] returns for the payload [data]. *)
Definition OpenWeather_result (data : value) : completion WeatherData :=
  let! data_name := get data "name" in
  let! v_t := get2 data "main" "temp" in
  let! t := ToNumber v_t in
  let! v_fl := get2 data "main" "feels_like" in
  let! fl := ToNumber v_fl in
  let! h := get2 data "main" "humidity" in
  let! v_lo := get2 data "main" "temp_min" in
  let! lo := ToNumber v_lo in
  let! v_hi := get2 data "main" "temp_max" in
  let! hi := ToNumber v_hi in
  let! w_main := (let! w0 := weather0 data in get w0 "main") in
  let! w_desc := (let! w0 := weather0 data in get w0 "description") in
  let! v_icon := (let! w0 := weather0 data in get w0 "icon") in
  let! w_icon := ToString v_icon in
  let! v_sp := get2 data "wind" "speed" in
  let! sp := js_mul v_sp (lit 10) in
  Normal {|
    name := data_name;
    main := {|
      temp := Math_round t;
      feels_like := Math_round fl;
      humidity := h;
      temp_min := Math_round lo;
      temp_max := Math_round hi
    |};
    weather := [{|
      weather_main := w_main;
      description := w_desc;
      icon := VStr ("https://openweathermap.org/img/wn/" +:+ w_icon +:+ "@2x.png")
    |}];
    wind := {| speed := num_div10 (Math_round sp) |}
  |}.

Definition getWeatherFromOpenWeather (w : World) (city : string) : M WeatherData :=
  match OPENWEATHER_API_KEY (env w) with
  | Some (String _ _ as API_KEY) =>
      let url := "https://api.openweathermap.org/data/2.5/weather?q=" +:+
                 encodeURIComponent city +:+ "&appid=" +:+ API_KEY +:+
                 "&units=metric&lang=zh_cn" in
      response <- fetchWithTimeout w url no_options default_timeout ;;
      if negb (ok response) then
        throw (Error ("OpenWeather API错误: " +:+ status_text response))
      else
        data <- response_json response ;;
        lift (OpenWeather_result data)
  | _ => throw (Error "OpenWeather API密钥未配置")
  end.

(** The object [getWeatherFromWeatherAPI] returns for the payload [data]. *)
Definition WeatherAPI_result (data : value) : completion WeatherData :=
  let! loc_name := get2 data "location" "name" in
  let! v_t := get2 data "current" "temp_c" in
  let! t := ToNumber v_t in
  let! v_fl := get2 data "current" "feelslike_c" in
  let! fl := ToNumber v_fl in
  let! h := get2 data "current" "humidity" in
  let! v_lo := get2 data "current" "temp_c" in
  let! lo := js_sub v_lo (lit 2) in
  let! v_hi := get2 data "current" "temp_c" in
  let! sum := js_add v_hi (lit 2) in
  let! hi := ToNumber sum in
  let! w_main := get3 data "current" "condition" "text" in
  let! w_desc := get3 data "current" "condition" "text" in
  let! v_icon := get3 data "current" "condition" "icon" in
  let! w_icon := ToString v_icon in
  let! v_kph := get2 data "current" "wind_kph" in
  let! mps := js_mul v_kph lit_0_27778 in
  Normal {|
    name := loc_name;
    main := {|
      temp := Math_round t;
      feels_like := Math_round fl;
      humidity := h;
      temp_min := Math_round lo;
      temp_max := Math_round hi
    |};
    weather := [{|
      weather_main := w_main;
      description := w_desc;
      icon := VStr ("https:" +:+ w_icon)
    |}];
    wind := {| speed := num_div10 (Math_round (num_mul mps (of_Z 10))) |}
  |}.

Definition getWeatherFromWeatherAPI (w : World) (city : string) : M WeatherData :=
  match WEATHERAPI_KEY (env w) with
  | Some (String _ _ as API_KEY) =>
      let url := "https://api.weatherapi.com/v1/current.json?key=" +:+ API_KEY +:+
                 "&q=" +:+ encodeURIComponent city +:+ "&lang=zh" in
      response <- fetchWithTimeout w url no_options default_timeout ;;
      if negb (ok response) then
        throw (Error ("WeatherAPI错误: " +:+ status_text response))
      else
        data <- response_json response ;;
        lift (WeatherAPI_result data)
  | _ => throw (Error "WeatherAPI密钥未配置")
  end.

(** The object [getWeatherFromWttrIn] returns for the payload [data]. *)
Definition WttrIn_result (data : value) (city : string) : completion WeatherData :=
  let! cc := get data "current_condition" in
  let current := or_ (opt_get0 cc) (VObj []) in
  let! area := get data "nearest_area" in
  let! v_t := get current "temp_C" in
  let! t := parseFloat (or_ v_t (lit 0)) in
  let! v_fl := get current "FeelsLikeC" in
  let! fl := parseFloat (or_ v_fl (lit 0)) in
  let! v_h := get current "humidity" in
  let! h := parseFloat (or_ v_h (lit 0)) in
  let! days := get data "weather" in
  let! t_lo := get current "temp_C" in
  let! lo := parseFloat (or_ (or_ (opt_get (opt_get0 days) "mintempC") t_lo) (lit 0)) in
  let! t_hi := get current "temp_C" in
  let! hi := parseFloat (or_ (or_ (opt_get (opt_get0 days) "maxtempC") t_hi) (lit 0)) in
  let! desc := get current "weatherDesc" in
  let! icon_url := get current "weatherIconUrl" in
  let! v_kmph := get current "windspeedKmph" in
  let! kmph := parseFloat (or_ v_kmph (lit 0)) in
  Normal {|
    name := or_ (opt_get (opt_get0 (opt_get (opt_get0 area) "areaName")) "value")
                (VStr city);
    main := {|
      temp := Math_round t;
      feels_like := Math_round fl;
      humidity := VNum h;
      temp_min := Math_round lo;
      temp_max := Math_round hi
    |};
    weather := [{|
      weather_main := or_ (opt_get (opt_get0 desc) "value") (VStr "未知");
      description := or_ (opt_get (opt_get0 desc) "value") (VStr "未知天气");
      icon := or_ (opt_get (opt_get0 icon_url) "value") (VStr "")
    |}];
    wind := {| speed := num_div10 (Math_round
                 (num_mul (num_mul kmph num_0_27778) (of_Z 10))) |}
  |}.

Definition wttr_options : FetchOptions :=
  {| headers := [("User-Agent",
       "Mozilla/5.0 (Windows NT 10.0; Win64; x64) AppleWebKit/537.36")] |}.

Definition getWeatherFromWttrIn (w : World) (city : string) : M WeatherData :=
  let url := "https://wttr.in/" +:+ encodeURIComponent city +:+ "?format=j1" in
  response <- fetchWithTimeout w url wttr_options 8000 ;;
  if negb (ok response) then
    throw (Error ("wttr.in API错误: " +:+ status_text response))
  else
    data <- response_json response ;;
    lift (WttrIn_result data city).

(** ** The endpoint *)

Inductive ResponseBody :=
| JsonData (d : WeatherData)
| JsonError (error : string).

Record HttpResponse := {
  http_body : ResponseBody;
  http_status : Z
}.

(** [NextResponse.json(body, { status })]; the status defaults to 200. *)
Definition NextResponse_json (b : ResponseBody) (st : Z) : HttpResponse :=
  {| http_body := b; http_status := st |}.

Record NextRequest := { searchParams : list (string * string) }.

(** [searchParams.get(k)]: the first value given for [k], or [null]. *)
Fixpoint searchParams_get (ps : list (string * string)) (k : string) : option string :=
  match ps with
  | [] => None
  | (k', v) :: r => if String.eqb k k' then Some v else searchParams_get r k
  end.

(** A function of the fallback chain, with its [name]. *)
Record Api := {
  api_name : string;
  api_call : World -> string -> M WeatherData
}.

(** The three adapter functions as values: a function carries its name. *)
Definition OpenWeather_api : Api :=
  {| api_name := "getWeatherFromOpenWeather"; api_call := getWeatherFromOpenWeather |}.

Definition WeatherAPI_api : Api :=
  {| api_name := "getWeatherFromWeatherAPI"; api_call := getWeatherFromWeatherAPI |}.

Definition WttrIn_api : Api :=
  {| api_name := "getWeatherFromWttrIn"; api_call := getWeatherFromWttrIn |}.

Definition apis : list Api := [OpenWeather_api; WttrIn_api].

(** The [for (const api of apis)] loop and the response after it. *)
Fixpoint for_apis (w : World) (l : list Api) (city cacheKey : string) : M HttpResponse :=
  match l with
  | [] =>
      ret (NextResponse_json (JsonError "所有天气服务暂时不可用，请稍后重试") 503)
  | api :: rest =>
      try_catch
        (log (EvInvoke (api_name api)) ;;
         weatherData <- api_call api w city ;;
         now <- Date_now ;;
         cache_set cacheKey {| data := weatherData; timestamp := now |} ;;
         ret (NextResponse_json (JsonData weatherData) 200))
        (fun error =>
           console_warn (api_name api) error ;;
           for_apis w rest city cacheKey)
  end.

Definition cacheKey_of (city : string) : string := "weather_" +:+ city.

Definition GET (w : World) (request : NextRequest) : M HttpResponse :=
  match searchParams_get (searchParams request) "city" with
  | Some (String _ _ as city) =>
      let cacheKey := cacheKey_of city in
      cached <- cache_get cacheKey ;;
      match cached with
      | Some c =>
          now <- Date_now ;;
          if now - timestamp c <? CACHE_DURATION then
            ret (NextResponse_json (JsonData (data c)) 200)
          else for_apis w apis city cacheKey
      | None => for_apis w apis city cacheKey
      end
  | _ => ret (NextResponse_json (JsonError "城市名称不能为空") 400)
  end.

(** ** The display client *)

Record ClientState := {
  city : string;
  weatherData : option value;
  loading : bool;
  error : string
}.

(** What the page's [fetch] answers for a URL, and the message the engine
    gives an exception it raised itself. *)
Record Browser := {
  api_fetch : string -> FetchResult;
  engine_message : exn -> string
}.

Definition err_message (b : Browser) (e : exn) : string :=
  match e with
  | Error m => m
  | other => engine_message b other
  end.

(** The body of the [try] block of [handleSubmit]. *)
Definition handleSubmit_try (b : Browser) (request_url : string) : completion value :=
  match api_fetch b request_url with
  | Rejected => Throw FetchRejected
  | Responded st None => Throw SyntaxError
  | Responded st (Some d) =>
      if negb (ok {| status := st; body := Some d |}) then
        let! e := get d "error" in
        let! message := ToString (or_ e (VStr "获取天气数据失败")) in
        Throw (Error message)
      else Normal d
  end.

(** [handleSubmit]: the state once the handler has finished, and the
    requests it has sent. *)
Definition handleSubmit (b : Browser) (st : ClientState) : ClientState * list string :=
  if String.eqb (trim (city st)) "" then (st, [])
  else
    let request_url := "/api/weather?city=" +:+ encodeURIComponent (city st) in
    match handleSubmit_try b request_url with
    | Normal d =>
        ({| city := city st; weatherData := Some d; loading := false; error := "" |},
         [request_url])
    | Throw err =>
        ({| city := city st; weatherData := weatherData st; loading := false;
            error := err_message b err |},
         [request_url])
    end.

(** ** The earlier routes

    Two earlier versions of the route ask wttr.in only, with a plain
    [fetch] (no timeout), keep no cache and answer every failure with
    status 500. *)

(** What a plain [fetch(url, options)] comes back with. *)
Definition Net : Type := string -> FetchOptions -> FetchResult.

Definition wttr_url (city : string) : string :=
  "https://wttr.in/" +:+ encodeURIComponent city +:+ "?format=j1".

(** The [try] block up to the parsed payload, shared by both versions:
    [fetch], the check of [response.ok], [response.json()]. *)
Definition fetch_payload (net : Net) (city : string) : completion value :=
  match net (wttr_url city) wttr_options with
  | Rejected => Throw FetchRejected
  | Responded st b =>
      if negb (ok {| status := st; body := b |}) then
        Throw (Error ("天气API错误: " +:+ status_text {| status := st; body := b |}))
      else
        match b with
        | Some payload => Normal payload
        | None => Throw SyntaxError
        end
  end.

(** The version with [temp_min] and [temp_max]. *)
Module RangeRoute.

(** The object literal [weatherData]. *)
Definition weatherData (data : value) (city : string) : completion WeatherData :=
  let! cc := get data "current_condition" in
  let current := or_ (opt_get0 cc) (VObj []) in
  let! area := get data "nearest_area" in
  let! v_t := get current "temp_C" in
  let! t := parseFloat (or_ v_t (lit 0)) in
  let! v_fl := get current "FeelsLikeC" in
  let! fl := parseFloat (or_ v_fl (lit 0)) in
  let! v_h := get current "humidity" in
  let! h := parseFloat (or_ v_h (lit 0)) in
  let! days := get data "weather" in
  let! t_lo := get current "temp_C" in
  let! lo := parseFloat (or_ (or_ (opt_get (opt_get0 days) "mintempC") t_lo) (lit 0)) in
  let! t_hi := get current "temp_C" in
  let! hi := parseFloat (or_ (or_ (opt_get (opt_get0 days) "maxtempC") t_hi) (lit 0)) in
  let! desc := get current "weatherDesc" in
  let! icon_url := get current "weatherIconUrl" in
  let! v_kmph := get current "windspeedKmph" in
  let! kmph := parseFloat (or_ v_kmph (lit 0)) in
  Normal {|
    name := or_ (opt_get (opt_get0 (opt_get (opt_get0 area) "areaName")) "value")
                (VStr city);
    main := {|
      temp := t;
      feels_like := fl;
      humidity := VNum h;
      temp_min := lo;
      temp_max := hi
    |};
    weather := [{|
      weather_main := or_ (opt_get (opt_get0 desc) "value") (VStr "未知");
      description := or_ (opt_get (opt_get0 desc) "value") (VStr "未知天气");
      icon := or_ (opt_get (opt_get0 icon_url) "value") (VStr "")
    |}];
    wind := {| speed := num_mul kmph num_0_27778 |}
  |}.

(** [GET]: the response, and what [console.error] was given. *)
Definition GET (net : Net) (request : NextRequest) : HttpResponse * list exn :=
  match searchParams_get (searchParams request) "city" with
  | Some (String _ _ as city) =>
      match (let! data := fetch_payload net city in weatherData data city) with
      | Normal d => (NextResponse_json (JsonData d) 200, [])
      | Throw error =>
          (NextResponse_json (JsonError "获取天气数据失败，请稍后重试") 500, [error])
      end
  | _ => (NextResponse_json (JsonError "城市名称不能为空") 400, [])
  end.

End RangeRoute.

(** The first version, without a temperature range. *)
Module BasicRoute.

Record MainData := {
  temp : number;
  feels_like : number;
  humidity : number
}.

Record WeatherData := {
  name : value;
  main : MainData;
  weather : list WeatherItem;
  wind : WindData
}.

Inductive ResponseBody :=
| JsonData (d : WeatherData)
| JsonError (error : string).

Record HttpResponse := {
  http_body : ResponseBody;
  http_status : Z
}.

(** [data.current_condition?.[0]?.k] *)
Definition condition (data : value) (k : string) : completion value :=
  let! cc := get data "current_condition" in
  Normal (opt_get (opt_get0 cc) k).

(** The object literal [weatherData]. *)
Definition weatherData (data : value) (city : string) : completion WeatherData :=
  let! area := get data "nearest_area" in
  let! v_t := condition data "temp_C" in
  let! t := parseFloat (or_ v_t (lit 0)) in
  let! v_fl := condition data "FeelsLikeC" in
  let! fl := parseFloat (or_ v_fl (lit 0)) in
  let! v_h := condition data "humidity" in
  let! h := parseFloat (or_ v_h (lit 0)) in
  let! desc_main := condition data "weatherDesc" in
  let! desc := condition data "weatherDesc" in
  let! icon_url := condition data "weatherIconUrl" in
  let! v_kmph := condition data "windspeedKmph" in
  let! kmph := parseFloat (or_ v_kmph (lit 0)) in
  Normal {|
    name := or_ (opt_get (opt_get0 (opt_get (opt_get0 area) "areaName")) "value")
                (VStr city);
    main := {|
      temp := t;
      feels_like := fl;
      humidity := h
    |};
    weather := [{|
      weather_main := or_ (opt_get (opt_get0 desc_main) "value") (VStr "未知");
      description := or_ (opt_get (opt_get0 desc) "value") (VStr "未知天气");
      icon := or_ (opt_get (opt_get0 icon_url) "value") (VStr "")
    |}];
    wind := {| speed := num_mul kmph num_0_27778 |}
  |}.

(** [GET]: the response, and what [console.error] was given. *)
Definition GET (net : Net) (request : NextRequest) : HttpResponse * list exn :=
  match searchParams_get (searchParams request) "city" with
  | Some (String _ _ as city) =>
      match (let! data := fetch_payload net city in weatherData data city) with
      | Normal d => ({| http_body := JsonData d; http_status := 200 |}, [])
      | Throw error =>
          ({| http_body := JsonError "获取天气数据失败，请稍后重试";
              http_status := 500 |}, [error])
      end
  | _ => ({| http_body := JsonError "城市名称不能为空"; http_status := 400 |}, [])
  end.

End BasicRoute.

(** The rounding the current wttr.in adapter applies to what the earlier
    route returned as it was. *)
Definition round_snapshot (o : WeatherData) : WeatherData :=
  {| name := name o;
     main := {| temp := Math_round (temp (main o));
                feels_like := Math_round (feels_like (main o));
                humidity := humidity (main o);
                temp_min := Math_round (temp_min (main o));
                temp_max := Math_round (temp_max (main o)) |};
     weather := weather o;
     wind := {| speed := num_div10 (Math_round
                  (num_mul (speed (wind o)) (of_Z 10))) |} |}.

(** The snapshot of the first version that has the fields of a snapshot
    with a range, the range left out. *)
Definition without_range (d : WeatherData) : BasicRoute.WeatherData :=
  {| BasicRoute.name := name d;
     BasicRoute.main := {| BasicRoute.temp := temp (main d);
                           BasicRoute.feels_like := feels_like (main d);
                           BasicRoute.humidity :=
                             match humidity (main d) with
                             | VNum h => h
                             | _ => NaN
                             end |};
     BasicRoute.weather := weather d;
     BasicRoute.wind := wind d |}.

(** ** States the server can be in *)

(** The caches a server process can hold: empty at start, then whatever the
    requests it has served left behind. *)
Inductive reachable : gmap string CacheData -> Prop :=
| reachable_start : reachable ∅
| reachable_GET (w : World) (request : NextRequest) (s : State) :
    reachable (cache s) -> reachable (cache (GET w request s).2).

(** Whether a lookup of [c] in state [s] is answered from the cache. *)
Definition fresh (s : State) (c : string) : bool :=
  match cache s !! cacheKey_of c with
  | Some e => clock s - timestamp e <? CACHE_DURATION
  | None => false
  end.

Definition logged (s : State) (evs : list Event) : State :=
  {| cache := cache s; clock := clock s; trace := trace s ++ evs |}.

(** Every adapter of [l] is called in turn from [s] and throws, leaving [s']. *)
Inductive all_fail (w : World) (c : string) : list Api -> State -> State -> Prop :=
| all_fail_nil (s : State) : all_fail w c [] s s
| all_fail_cons (api : Api) (rest : list Api) (s s1 s2 : State) (e : exn) :
    api_call api w c (logged s [EvInvoke (api_name api)]) = (Throw e, s1) ->
    all_fail w c rest (logged s1 [EvWarn (api_name api) e]) s2 ->
    all_fail w c (api :: rest) s s2.

(** The names of the adapters a trace shows being called. *)
Definition invoked (evs : list Event) : list string :=
  omap (fun e => match e with EvInvoke n => Some n | _ => None end) evs.

(** The network calls of a trace. *)
Definition fetched (evs : list Event) : list FetchCall :=
  omap (fun e => match e with EvFetch c => Some c | _ => None end) evs.

Definition key_absent (k : option string) : Prop := k = None \/ k = Some "".

(** A finite number is whole, resp. a whole number of tenths. *)
Definition whole (x : number) : Prop :=
  exists z : Z, match x with Fin d => Qof d == inject_Z z | _ => False end.

Definition tenths (x : number) : Prop :=
  exists z : Z, match x with Fin d => Qof d == z # 10 | _ => False end.

Definition finite (x : number) : Prop :=
  match x with Fin _ => True | _ => False end.

(** The temperatures of a snapshot are whole and its wind speed is a whole
    number of tenths, wherever they are finite numbers at all. *)
Definition rounded_where_finite (d : WeatherData) : Prop :=
  (finite (temp (main d)) -> whole (temp (main d))) /\
  (finite (feels_like (main d)) -> whole (feels_like (main d))) /\
  (finite (temp_min (main d)) -> whole (temp_min (main d))) /\
  (finite (temp_max (main d)) -> whole (temp_max (main d))) /\
  (finite (speed (wind d)) -> tenths (speed (wind d))).

(** The same without the proviso: what the specification asks of every
    snapshot. *)
Definition rounded (d : WeatherData) : Prop :=
  whole (temp (main d)) /\ whole (feels_like (main d)) /\
  whole (temp_min (main d)) /\ whole (temp_max (main d)) /\
  tenths (speed (wind d)).

(** ** Sample requests, payloads and worlds *)

Definition req (c : string) : NextRequest := {| searchParams := [("city", c)] |}.

Definition st0 : State := {| cache := ∅; clock := 1000; trace := [] |}.

Definition no_keys : ProcessEnv :=
  {| OPENWEATHER_API_KEY := None; WEATHERAPI_KEY := None |}.

Definition both_keys : ProcessEnv :=
  {| OPENWEATHER_API_KEY := Some "k1"; WEATHERAPI_KEY := Some "k2" |}.

Definition wttr_payload (h : value) : value :=
  VObj [("current_condition",
         VArr [VObj [("temp_C", VStr "15"); ("FeelsLikeC", VStr "14");
                     ("humidity", h); ("windspeedKmph", VStr "36");
                     ("weatherDesc", VArr [VObj [("value", VStr "Sunny")]])]]);
        ("nearest_area",
         VArr [VObj [("areaName", VArr [VObj [("value", VStr "Paris")]])]]);
        ("weather", VArr [VObj [("mintempC", VStr "9"); ("maxtempC", VStr "19")]])].

Definition OpenWeather_payload (t h : value) : value :=
  VObj [("name", VStr "Paris");
        ("main", VObj [("temp", t); ("feels_like", VNum (Fin (Dec 118 (-1))));
                       ("humidity", h); ("temp_min", lit 10); ("temp_max", lit 14)]);
        ("weather", VArr [VObj [("main", VStr "Clear");
                                ("description", VStr "clear sky");
                                ("icon", VStr "01d")]]);
        ("wind", VObj [("speed", VNum (Fin (Dec 364 (-2))))])].

(** A response of OpenWeather whose [main] object has no [temp]. *)
Definition OpenWeather_payload_without_temp : value :=
  VObj [("name", VStr "Paris");
        ("main", VObj [("feels_like", VNum (Fin (Dec 118 (-1))));
                       ("humidity", lit 50); ("temp_min", lit 10);
                       ("temp_max", lit 14)]);
        ("weather", VArr [VObj [("main", VStr "Clear");
                                ("description", VStr "clear sky");
                                ("icon", VStr "01d")]]);
        ("wind", VObj [("speed", VNum (Fin (Dec 364 (-2))))])].

Definition WeatherAPI_payload (kph h : value) : value :=
  VObj [("location", VObj [("name", VStr "Paris")]);
        ("current",
         VObj [("temp_c", VNum (Fin (Dec 125 (-1)))); ("feelslike_c", lit 11);
               ("humidity", h); ("wind_kph", kph);
               ("condition", VObj [("text", VStr "Sunny");
                                   ("icon", VStr "//cdn.weatherapi.com/64x64/day/113.png")])])].

(** A network that answers every call with status 200 and the given body
    after 120 ms, and one that answers every call with status 500. *)
Definition answering (e : ProcessEnv) (payload : value) : World :=
  {| env := e; fetch := fun _ => (120, Responded 200 (Some payload)) |}.

Definition failing (e : ProcessEnv) : World :=
  {| env := e; fetch := fun _ => (120, Responded 500 None) |}.

(** A first lookup of Paris by a server that has just started, without
    credentials, and the server some time after it. *)
Definition first_lookup : completion HttpResponse * State :=
  GET (answering no_keys (wttr_payload (VStr "40"))) (req "Paris") st0.

Definition served_once (now : Z) : State :=
  {| cache := cache first_lookup.2; clock := now; trace := [] |}.

Definition blank_form : ClientState :=
  {| city := "   "; weatherData := None; loading := false; error := "" |}.

Definition some_browser : Browser :=
  {| api_fetch := fun _ => Rejected; engine_message := fun _ => "Failed to fetch" |}.

(** ** Auxiliary definitions for the statements *)

Definition invalid_input : HttpResponse :=
  NextResponse_json (JsonError "城市名称不能为空") 400.

Definition unavailable : HttpResponse :=
  NextResponse_json (JsonError "所有天气服务暂时不可用，请稍后重试") 503.

Definition found (d : WeatherData) : HttpResponse :=
  NextResponse_json (JsonData d) 200.

(** The state once the network has answered [call]. *)
Definition after_fetch (w : World) (s : State) (call : FetchCall) : State :=
  {| cache := cache s; clock := clock s + (fetch w call).1;
     trace := trace s ++ [EvFetch call] |}.

(** The state once [cache.set(k, { data: d, timestamp: Date.now() })] has run. *)
Definition stored (k : string) (d : WeatherData) (s : State) : State :=
  {| cache := <[k := {| data := d; timestamp := clock s |}]> (cache s);
     clock := clock s; trace := trace s |}.

(** What an adapter makes of the network's answer to its call. *)
Definition answer (w : World) (call : FetchCall) (msg : string)
    (f : value -> completion WeatherData) : completion WeatherData :=
  match (fetch w call).2 with
  | Rejected => Throw FetchRejected
  | Responded st b =>
      if ok {| status := st; body := b |} then
        match b with
        | Some payload => f payload
        | None => Throw SyntaxError
        end
      else Throw (Error (msg +:+ status_text {| status := st; body := b |}))
  end.

Definition OpenWeather_call (API_KEY c : string) : FetchCall :=
  {| url := "https://api.openweathermap.org/data/2.5/weather?q=" +:+
            encodeURIComponent c +:+ "&appid=" +:+ API_KEY +:+
            "&units=metric&lang=zh_cn";
     options := no_options; timeout := default_timeout |}.

Definition WeatherAPI_call (API_KEY c : string) : FetchCall :=
  {| url := "https://api.weatherapi.com/v1/current.json?key=" +:+ API_KEY +:+
            "&q=" +:+ encodeURIComponent c +:+ "&lang=zh";
     options := no_options; timeout := default_timeout |}.

Definition WttrIn_call (c : string) : FetchCall :=
  {| url := "https://wttr.in/" +:+ encodeURIComponent c +:+ "?format=j1";
     options := wttr_options; timeout := 8000 |}.

(** The world [w] with the WeatherAPI credential set to [k]. *)
Definition with_WEATHERAPI_KEY (w : World) (k : option string) : World :=
  {| env := {| OPENWEATHER_API_KEY := OPENWEATHER_API_KEY (env w);
               WEATHERAPI_KEY := k |};
     fetch := fetch w |}.

(** Every key of the cache was made from a city that is not the empty string. *)
Definition keys_of_cities (m : gmap string CacheData) : Prop :=
  forall k e, m !! k = Some e -> exists c, c <> "" /\ k = cacheKey_of c.

(** [data.current_condition?.[0] || {}] *)
Definition current_of (payload : value) : value :=
  or_ (opt_get0 (prop payload "current_condition")) (VObj []).

(** Whether a value can be converted to a string or to a number: it is
    neither an object with a property [toString] of its own nor an array
    that holds one, at any depth. *)
Fixpoint coercible (v : value) : bool :=
  match v with
  | VArr l =>
      (fix all (l : list value) : bool :=
         match l with
         | [] => true
         | x :: r => coercible x && all r
         end) l
  | VObj fs => negb (has_own "toString" fs)
  | _ => true
  end.

(** The parts of an OpenWeather payload the adapter reads properties of. *)
Definition OpenWeather_shape (payload : value) : bool :=
  negb (nullish payload) &&
  negb (nullish (prop payload "main")) &&
  negb (nullish (prop payload "weather")) &&
  negb (nullish (prop0 (prop payload "weather"))) &&
  negb (nullish (prop payload "wind")).

(** The fields of an OpenWeather payload the adapter converts to a number
    or to a string. *)
Definition OpenWeather_converted (payload : value) : list value :=
  [prop (prop payload "main") "temp";
   prop (prop payload "main") "feels_like";
   prop (prop payload "main") "temp_min";
   prop (prop payload "main") "temp_max";
   prop (prop0 (prop payload "weather")) "icon";
   prop (prop payload "wind") "speed"].

Definition OpenWeather_accepts (payload : value) : bool :=
  OpenWeather_shape payload && forallb coercible (OpenWeather_converted payload).

(** The parts of a WeatherAPI payload the adapter reads properties of. *)
Definition WeatherAPI_shape (payload : value) : bool :=
  negb (nullish payload) &&
  negb (nullish (prop payload "location")) &&
  negb (nullish (prop payload "current")) &&
  negb (nullish (prop (prop payload "current") "condition")).

(** The fields of a WeatherAPI payload the adapter converts. *)
Definition WeatherAPI_converted (payload : value) : list value :=
  [prop (prop payload "current") "temp_c";
   prop (prop payload "current") "feelslike_c";
   prop (prop (prop payload "current") "condition") "icon";
   prop (prop payload "current") "wind_kph"].

Definition WeatherAPI_accepts (payload : value) : bool :=
  WeatherAPI_shape payload && forallb coercible (WeatherAPI_converted payload).

(** What the wttr.in mapping gives to [parseFloat]. *)
Definition WttrIn_parsed (payload : value) : list value :=
  let current := current_of payload in
  let days := prop payload "weather" in
  [or_ (prop current "temp_C") (lit 0);
   or_ (prop current "FeelsLikeC") (lit 0);
   or_ (prop current "humidity") (lit 0);
   or_ (or_ (opt_get (opt_get0 days) "mintempC") (prop current "temp_C")) (lit 0);
   or_ (or_ (opt_get (opt_get0 days) "maxtempC") (prop current "temp_C")) (lit 0);
   or_ (prop current "windspeedKmph") (lit 0)].

Definition WttrIn_accepts (payload : value) : bool :=
  negb (nullish payload) && forallb coercible (WttrIn_parsed payload).

(** The snapshot the wttr.in adapter makes of a payload that says nothing. *)
Definition WttrIn_default (c : string) : WeatherData :=
  {| name := VStr c;
     main := {| temp := of_Z 0; feels_like := of_Z 0; humidity := lit 0;
                temp_min := of_Z 0; temp_max := of_Z 0 |};
     weather := [{| weather_main := VStr "未知"; description := VStr "未知天气";
                    icon := VStr "" |}];
     wind := {| speed := Fin (Dec 0 (-1)) |} |}.

(** A response of WeatherAPI that gives [temp_c] as a string. *)
Definition WeatherAPI_payload_string_temp : value :=
  VObj [("location", VObj [("name", VStr "Paris")]);
        ("current", VObj [("temp_c", VStr "20"); ("condition", VObj [])])].

(** Whether the network's answer to the wttr.in call is one the adapter
    can use: a 2xx status with a JSON body the mapping accepts. *)
Definition WttrIn_usable (w : World) (c : string) : bool :=
  match (fetch w (WttrIn_call c)).2 with
  | Responded st (Some payload) =>
      ok {| status := st; body := Some payload |} && WttrIn_accepts payload
  | _ => false
  end.

(** Whether OpenWeather can be used: a credential is configured and the
    network's answer to the call has a 2xx status and a JSON body the
    mapping accepts. *)
Definition OpenWeather_usable (w : World) (c : string) : bool :=
  match OPENWEATHER_API_KEY (env w) with
  | Some (String _ _ as API_KEY) =>
      match (fetch w (OpenWeather_call API_KEY c)).2 with
      | Responded st (Some payload) =>
          ok {| status := st; body := Some payload |} && OpenWeather_accepts payload
      | _ => false
      end
  | _ => false
  end.

(** The JSON body of a 2xx answer of the network to the plain wttr.in call. *)
Definition Net_payload (net : Net) (city : string) : option value :=
  match net (wttr_url city) wttr_options with
  | Responded st (Some payload) =>
      if ok {| status := st; body := Some payload |} then Some payload else None
  | _ => None
  end.

Definition failed_500 : HttpResponse :=
  NextResponse_json (JsonError "获取天气数据失败，请稍后重试") 500.

Definition BasicRoute_failed_500 : BasicRoute.HttpResponse :=
  {| BasicRoute.http_body := BasicRoute.JsonError "获取天气数据失败，请稍后重试";
     BasicRoute.http_status := 500 |}.

(** ** From the endpoint's response to the page *)

(** What [JSON.parse(JSON.stringify(v))] gives, [None] standing for a value
    that is left out: [undefined] is left out of an object and becomes
    [null] in an array; NaN and the infinities become [null]. *)
Fixpoint to_JSON (v : value) : option value :=
  match v with
  | VUndef => None
  | VNum (Fin d) => Some (VNum (Fin d))
  | VNum _ => Some VNull
  | VArr l =>
      Some (VArr ((fix items (l : list value) : list value :=
                     match l with
                     | [] => []
                     | x :: r =>
                         match to_JSON x with
                         | Some j => j
                         | None => VNull
                         end :: items r
                     end) l))
  | VObj fs =>
      Some (VObj ((fix fields (fs : list (string * value)) : list (string * value) :=
                     match fs with
                     | [] => []
                     | (k, x) :: r =>
                         match to_JSON x with
                         | Some j => (k, j) :: fields r
                         | None => fields r
                         end
                     end) fs))
  | other => Some other
  end.

(** A snapshot as the object literal the adapters build. *)
Definition value_of_WeatherData (d : WeatherData) : value :=
  VObj [("name", name d);
        ("main", VObj [("temp", VNum (temp (main d)));
                       ("feels_like", VNum (feels_like (main d)));
                       ("humidity", humidity (main d));
                       ("temp_min", VNum (temp_min (main d)));
                       ("temp_max", VNum (temp_max (main d)))]);
        ("weather", VArr (map (fun i =>
                       VObj [("main", weather_main i);
                             ("description", description i);
                             ("icon", icon i)]) (weather d)));
        ("wind", VObj [("speed", VNum (speed (wind d)))])].

Definition value_of_body (b : ResponseBody) : value :=
  match b with
  | JsonData d => value_of_WeatherData d
  | JsonError e => VObj [("error", VStr e)]
  end.

(** The response of the endpoint as the page's [fetch] receives it. *)
Definition wire (r : HttpResponse) : FetchResult :=
  Responded (http_status r) (to_JSON (value_of_body (http_body r))).

(** The request [handleSubmit] sends for a city. *)
Definition request_url (c : string) : string :=
  "/api/weather?city=" +:+ encodeURIComponent c.

(** What the weather card shows of [weatherData]. *)
Record Card := {
  card_name : value;
  card_description : value;
  card_max : number;
  card_min : number;
  card_current : number;
  card_feels_like : number;
  card_humidity : value;
  card_wind : number
}.

(** The expressions in braces of the weather card, in the order of the page. *)
Definition render_card (weatherData : value) : completion Card :=
  let! nm := get weatherData "name" in
  let! desc := (let! w0 := weather0 weatherData in get w0 "description") in
  let! v_hi := get2 weatherData "main" "temp_max" in
  let! hi := ToNumber v_hi in
  let! v_lo := get2 weatherData "main" "temp_min" in
  let! lo := ToNumber v_lo in
  let! v_t := get2 weatherData "main" "temp" in
  let! t := ToNumber v_t in
  let! v_fl := get2 weatherData "main" "feels_like" in
  let! fl := ToNumber v_fl in
  let! h := get2 weatherData "main" "humidity" in
  let! v_sp := get2 weatherData "wind" "speed" in
  let! sp := js_mul v_sp (lit 10) in
  Normal {|
    card_name := nm;
    card_description := desc;
    card_max := Math_round hi;
    card_min := Math_round lo;
    card_current := Math_round t;
    card_feels_like := Math_round fl;
    card_humidity := h;
    card_wind := num_div10 (Math_round sp)
  |}.

(** What the card makes of a number of a snapshot once it has gone through
    JSON: NaN and the infinities have become [null], which counts as 0. *)
Definition through_JSON (x : number) : number :=
  match x with
  | Fin d => Fin d
  | _ => of_Z 0
  end.

(** A number of a snapshot as it arrives in the page. *)
Definition num_json (x : number) : value :=
  match x with
  | Fin d => VNum (Fin d)
  | _ => VNull
  end.

(** The wind speed the card shows for a snapshot's speed. *)
Definition wind_through_JSON (x : number) : number :=
  match x with
  | Fin d => Fin d
  | _ => Fin (Dec 0 (-1))
  end.

(** The form of every snapshot the adapters build: rounded numbers and one
    weather item. *)
Definition adapter_shaped (d : WeatherData) : Prop :=
  (exists y, temp (main d) = Math_round y) /\
  (exists y, feels_like (main d) = Math_round y) /\
  (exists y, temp_min (main d) = Math_round y) /\
  (exists y, temp_max (main d) = Math_round y) /\
  (exists y, speed (wind d) = num_div10 (Math_round y)) /\
  (exists i, weather d = [i]).

(** The two loops of [to_JSON], by name. *)
Definition fields_JSON : list (string * value) -> list (string * value) :=
  fix fields (fs : list (string * value)) : list (string * value) :=
    match fs with
    | [] => []
    | (k, x) :: r =>
        match to_JSON x with
        | Some j => (k, j) :: fields r
        | None => fields r
        end
    end.

Definition items_JSON : list value -> list value :=
  fix items (l : list value) : list value :=
    match l with
    | [] => []
    | x :: r =>
        match to_JSON x with
        | Some j => j
        | None => VNull
        end :: items r
    end.

(** ** Proof steps used more than once *)

(** Closes one outcome of the loop over the chain; [n] is the index of the
    last adapter called. *)
Ltac chain_leaf n :=
  eexists _, _, _;
  split; [reflexivity|];
  split; [simpl; rewrite <- ?app_assoc; simpl; reflexivity|];
  split; [simpl; eauto|];
  split; [exists n; reflexivity|];
  split; [discriminate|];
  simpl; intros call Hin;
  repeat (apply elem_of_cons in Hin as [->|Hin]; [eauto|]);
  apply elem_of_nil in Hin; contradiction.

(** Runs through the property reads of a result that completed normally. *)
Ltac bind_steps H :=
  unfold OpenWeather_result, WeatherAPI_result, WttrIn_result in H;
  repeat match type of H with
         | bind_c ?c _ = Normal _ =>
             let v := fresh "v" in
             let E := fresh "E" in
             destruct c as [v|] eqn:E; cbn [bind_c] in H; [|discriminate H]
         end;
  injection H as H.

(** Splits on whether [v] is [null] or [undefined] and runs the property
    reads of [v] accordingly. *)
Ltac by_nullish v :=
  let E := fresh "E" in
  unfold get, get0;
  destruct (nullish v) eqn:E;
  cbn [bind_c].

(** Splits on the outcome of a conversion, given by [lem] as a normal
    completion of a convertible value or a TypeError on one that is not. *)
Ltac by_conversion lem :=
  let H := fresh "H" in
  pose proof lem as H;
  match type of H with
  | match ?c with _ => _ end =>
      destruct c as [?|?];
      [rewrite ?H | destruct H as [H ->]; rewrite ?H];
      clear H; cbn [bind_c]
  end.

(** Closes the case of a mapping that has thrown a TypeError. *)
Ltac not_accepted :=
  split; [cbn [andb negb forallb]; rewrite ?andb_false_r; reflexivity | reflexivity].

(** * Properties *)

(** ** The endpoint's guard and cache check *)

Lemma GET_no_city w request s :
  searchParams_get (searchParams request) "city" = None ->
  GET w request s = (Normal invalid_input, s).
Proof. intros H. unfold GET. rewrite H. reflexivity. Qed.

Lemma GET_empty_city w request s :
  searchParams_get (searchParams request) "city" = Some "" ->
  GET w request s = (Normal invalid_input, s).
Proof. intros H. unfold GET. rewrite H. reflexivity. Qed.

(** With a city that is not the empty string, the cache decides. *)
Lemma GET_city w request c s :
  searchParams_get (searchParams request) "city" = Some c ->
  c <> "" ->
  GET w request s =
    match cache s !! cacheKey_of c with
    | Some e =>
        if clock s - timestamp e <? CACHE_DURATION
        then (Normal (found (data e)), s)
        else for_apis w apis c (cacheKey_of c) s
    | None => for_apis w apis c (cacheKey_of c) s
    end.
Proof.
  intros H Hc. unfold GET. rewrite H.
  destruct c as [|a c']; [congruence|].
  unfold bind, cache_get, Date_now, ret, found.
  destruct (cache s !! cacheKey_of (String a c')) as [e|]; [|reflexivity].
  destruct (clock s - timestamp e <? CACHE_DURATION); reflexivity.
Qed.

Lemma GET_fresh w request c s e :
  searchParams_get (searchParams request) "city" = Some c ->
  c <> "" ->
  cache s !! cacheKey_of c = Some e ->
  clock s - timestamp e < CACHE_DURATION ->
  GET w request s = (Normal (found (data e)), s).
Proof.
  intros H Hc He Hlt. rewrite (GET_city w request c s H Hc), He.
  apply Z.ltb_lt in Hlt. rewrite Hlt. reflexivity.
Qed.

Lemma GET_not_fresh w request c s :
  searchParams_get (searchParams request) "city" = Some c ->
  c <> "" ->
  fresh s c = false ->
  GET w request s = for_apis w apis c (cacheKey_of c) s.
Proof.
  intros H Hc Hf. rewrite (GET_city w request c s H Hc).
  unfold fresh in Hf. destruct (cache s !! cacheKey_of c) as [e|]; [|reflexivity].
  rewrite Hf. reflexivity.
Qed.


(** ** Adapters: what they return and what they leave behind *)

Lemma fetch_then_map w u o t msg f s :
  (response <- fetchWithTimeout w u o t ;;
   if negb (ok response) then throw (Error (msg +:+ status_text response))
   else data <- response_json response ;; lift (f data)) s
  = (answer w {| url := u; options := o; timeout := t |} msg f,
     after_fetch w s {| url := u; options := o; timeout := t |}).
Proof.
  unfold bind, fetchWithTimeout, answer, after_fetch.
  destruct (fetch w _) as [dt [|st b]]; simpl; [reflexivity|].
  destruct (ok _); simpl; [|reflexivity].
  unfold response_json, bind, lift. simpl. destruct b; reflexivity.
Qed.

Lemma getWeatherFromOpenWeather_run w c s :
  getWeatherFromOpenWeather w c s =
    match OPENWEATHER_API_KEY (env w) with
    | Some (String _ _ as API_KEY) =>
        (answer w (OpenWeather_call API_KEY c) "OpenWeather API错误: " OpenWeather_result,
         after_fetch w s (OpenWeather_call API_KEY c))
    | _ => (Throw (Error "OpenWeather API密钥未配置"), s)
    end.
Proof.
  unfold getWeatherFromOpenWeather.
  destruct (OPENWEATHER_API_KEY (env w)) as [[|a k]|]; try reflexivity.
  apply fetch_then_map.
Qed.

Lemma getWeatherFromWeatherAPI_run w c s :
  getWeatherFromWeatherAPI w c s =
    match WEATHERAPI_KEY (env w) with
    | Some (String _ _ as API_KEY) =>
        (answer w (WeatherAPI_call API_KEY c) "WeatherAPI错误: " WeatherAPI_result,
         after_fetch w s (WeatherAPI_call API_KEY c))
    | _ => (Throw (Error "WeatherAPI密钥未配置"), s)
    end.
Proof.
  unfold getWeatherFromWeatherAPI.
  destruct (WEATHERAPI_KEY (env w)) as [[|a k]|]; try reflexivity.
  apply fetch_then_map.
Qed.

Lemma getWeatherFromWttrIn_run w c s :
  getWeatherFromWttrIn w c s =
    (answer w (WttrIn_call c) "wttr.in API错误: " (fun d => WttrIn_result d c),
     after_fetch w s (WttrIn_call c)).
Proof. unfold getWeatherFromWttrIn. apply fetch_then_map. Qed.

(** An adapter succeeds only on a response with a 2xx status and a JSON body. *)
Lemma answer_Normal w call msg f d :
  answer w call msg f = Normal d ->
  exists st payload,
    (fetch w call).2 = Responded st (Some payload) /\
    ok {| status := st; body := Some payload |} = true /\
    f payload = Normal d.
Proof.
  unfold answer. destruct ((fetch w call).2) as [|st b]; [discriminate|].
  destruct (ok _) eqn:Hok; [|discriminate].
  destruct b as [payload|]; [|discriminate].
  intros H. exists st, payload. auto.
Qed.

(** ** The fallback loop *)

Lemma for_apis_cons w api rest c k s :
  for_apis w (api :: rest) c k s =
    match api_call api w c (logged s [EvInvoke (api_name api)]) with
    | (Normal d, s1) => (Normal (found d), stored k d s1)
    | (Throw e, s1) => for_apis w rest c k (logged s1 [EvWarn (api_name api) e])
    end.
Proof.
  simpl. unfold try_catch, bind, log, console_warn, log, logged. simpl.
  destruct (api_call api w c _) as [[d|e] s1]; reflexivity.
Qed.

Lemma for_apis_all_fail w c k l s s' :
  all_fail w c l s s' -> for_apis w l c k s = (Normal unavailable, s').
Proof.
  induction 1 as [s|api rest s s1 s2 e Hcall _ IH]; [reflexivity|].
  rewrite for_apis_cons, Hcall. exact IH.
Qed.

Lemma for_apis_first_success w c k pre api post s s1 s2 d :
  all_fail w c pre s s1 ->
  api_call api w c (logged s1 [EvInvoke (api_name api)]) = (Normal d, s2) ->
  for_apis w (pre ++ api :: post) c k s = (Normal (found d), stored k d s2).
Proof.
  intros Hpre. revert s2.
  induction Hpre as [s|a rest s s1 s2 e Hcall _ IH]; intros s3 Hok.
  - simpl app. rewrite for_apis_cons, Hok. reflexivity.
  - change ((a :: rest) ++ api :: post) with (a :: (rest ++ api :: post)).
    rewrite for_apis_cons, Hcall. apply IH. exact Hok.
Qed.

(** The loop over the chain the endpoint uses. *)
Lemma for_apis_chain w c k s :
  for_apis w apis c k s =
    match getWeatherFromOpenWeather w c
            (logged s [EvInvoke "getWeatherFromOpenWeather"]) with
    | (Normal d, s1) => (Normal (found d), stored k d s1)
    | (Throw e1, s1) =>
        match getWeatherFromWttrIn w c
                (logged (logged s1 [EvWarn "getWeatherFromOpenWeather" e1])
                        [EvInvoke "getWeatherFromWttrIn"]) with
        | (Normal d, s2) => (Normal (found d), stored k d s2)
        | (Throw e2, s2) =>
            (Normal unavailable, logged s2 [EvWarn "getWeatherFromWttrIn" e2])
        end
    end.
Proof.
  unfold apis. rewrite for_apis_cons. simpl api_call. simpl api_name.
  destruct (getWeatherFromOpenWeather w c _) as [[d|e1] s1]; [reflexivity|].
  rewrite for_apis_cons. simpl api_call. simpl api_name.
  destruct (getWeatherFromWttrIn w c _) as [[d|e2] s2]; reflexivity.
Qed.

(** What a run of the loop over the chain can do: it answers, it calls the
    adapters of the chain in order, it only fetches from the two upstream
    services of the chain, and it changes the cache only by storing the
    snapshot it answers with. *)
Lemma for_apis_chain_effect w c k s :
  exists r s' evs,
    for_apis w apis c k s = (Normal r, s') /\
    trace s' = trace s ++ evs /\
    ((r = unavailable /\ cache s' = cache s) \/
     (exists d, r = found d /\
        cache s' = <[k := {| data := d; timestamp := clock s' |}]> (cache s))) /\
    (exists n, invoked evs = take (S n) (map api_name apis)) /\
    fetched evs <> [] /\
    (forall call, call ∈ fetched evs ->
       (exists key, call = OpenWeather_call key c) \/ call = WttrIn_call c).
Proof.
  rewrite for_apis_chain, getWeatherFromOpenWeather_run.
  destruct (OPENWEATHER_API_KEY (env w)) as [[|a key]|].
  - rewrite getWeatherFromWttrIn_run.
    destruct (answer w (WttrIn_call c) _ _) as [d|e2]; chain_leaf 1%nat.
  - destruct (answer w (OpenWeather_call _ c) _ _) as [d|e1]; [chain_leaf 0%nat|].
    rewrite getWeatherFromWttrIn_run.
    destruct (answer w (WttrIn_call c) _ _) as [d|e2]; chain_leaf 1%nat.
  - rewrite getWeatherFromWttrIn_run.
    destruct (answer w (WttrIn_call c) _ _) as [d|e2]; chain_leaf 1%nat.
Qed.

(** A request either leaves the server as it was (invalid input, or a fresh
    cache entry) or runs the loop over the chain. *)
Lemma GET_effect w request s :
  exists r s' evs,
    GET w request s = (Normal r, s') /\
    trace s' = trace s ++ evs /\
    ((evs = [] /\ s' = s) \/
     (exists c,
        searchParams_get (searchParams request) "city" = Some c /\
        c <> "" /\ fresh s c = false /\
        ((r = unavailable /\ cache s' = cache s) \/
         (exists d, r = found d /\
            cache s' = <[cacheKey_of c := {| data := d; timestamp := clock s' |}]>
                         (cache s))) /\
        (exists n, invoked evs = take (S n) (map api_name apis)) /\
        fetched evs <> [] /\
        (forall call, call ∈ fetched evs ->
           (exists key, call = OpenWeather_call key c) \/ call = WttrIn_call c))).
Proof.
  destruct (searchParams_get (searchParams request) "city") as [c|] eqn:Hc.
  2: { exists invalid_input, s, []. rewrite GET_no_city by exact Hc.
       rewrite app_nil_r. auto. }
  destruct (decide (c = "")) as [->|Hne].
  { exists invalid_input, s, []. rewrite GET_empty_city by exact Hc.
    rewrite app_nil_r. auto. }
  destruct (fresh s c) eqn:Hf.
  - unfold fresh in Hf.
    destruct (cache s !! cacheKey_of c) as [e|] eqn:He; [|discriminate].
    exists (found (data e)), s, []. rewrite app_nil_r.
    rewrite (GET_fresh w request c s e Hc Hne He) by (apply Z.ltb_lt; exact Hf).
    auto.
  - rewrite (GET_not_fresh w request c s Hc Hne Hf).
    destruct (for_apis_chain_effect w c (cacheKey_of c) s)
      as (r & s' & evs & Hrun & Htr & Hcache & Hinv & Hfe & Hcalls).
    exists r, s', evs. split; [exact Hrun|]. split; [exact Htr|].
    right. exists c. auto 10.
Qed.

(** The endpoint always answers: no exception leaves [GET]. *)
Lemma GET_answers w request s :
  exists r s', GET w request s = (Normal r, s').
Proof.
  destruct (GET_effect w request s) as (r & s' & evs & H & _). eauto.
Qed.

Lemma GET_keeps_keys_of_cities w request s :
  keys_of_cities (cache s) -> keys_of_cities (cache (GET w request s).2).
Proof.
  intros Hk.
  destruct (GET_effect w request s)
    as (r & s' & evs & Hrun & _ & [[_ ->]|(c & _ & Hne & _ & Hcache & _)]);
    rewrite Hrun; simpl; [exact Hk|].
  destruct Hcache as [[_ ->]|(d & _ & ->)]; [exact Hk|].
  intros k e. rewrite lookup_insert. case_decide as Heq.
  - intros _. exists c. auto.
  - apply Hk.
Qed.

Lemma reachable_keys_of_cities m : reachable m -> keys_of_cities m.
Proof.
  induction 1 as [|w request s _ IH].
  - intros k e. rewrite lookup_empty. discriminate.
  - apply GET_keeps_keys_of_cities. exact IH.
Qed.

(** ** Claims about the guard and the cache *)

(** C1 (as amended): a request whose [city] parameter is missing or is the
    empty string is answered at once with the invalid-input error, status
    400, and leaves the server as it was: no adapter is called, nothing is
    fetched, the cache is untouched.  A city made of white space only is
    stopped by the display client, not by the endpoint: [handleSubmit]
    returns without sending a request and without changing its state. *)
Theorem GET_rejects_missing_or_empty_city
    (w : World) (request : NextRequest) (s : State)
    (b : Browser) (form : ClientState) :
  (searchParams_get (searchParams request) "city" = None \/
   searchParams_get (searchParams request) "city" = Some "" ->
   GET w request s = (Normal invalid_input, s)) /\
  (trim (city form) = "" -> handleSubmit b form = (form, [])).
Proof.
  split.
  - intros [H|H]; [apply GET_no_city | apply GET_empty_city]; exact H.
  - intros H. unfold handleSubmit. rewrite H. reflexivity.
Qed.

Lemma GET_rejects_missing_or_empty_city_witness :
  GET (answering no_keys (wttr_payload (VStr "40"))) (req "") st0
    = (Normal invalid_input, st0) /\
  handleSubmit some_browser blank_form = (blank_form, []).
Proof.
  destruct (GET_rejects_missing_or_empty_city
              (answering no_keys (wttr_payload (VStr "40"))) (req "") st0
              some_browser blank_form) as [H1 H2].
  split; [apply H1; right; reflexivity | apply H2; reflexivity].
Defined.

(** C1 (as stated) fails: a city that is a single space passes the guard
    of [GET]; the chain is run, wttr.in is fetched and the answer has
    status 200. *)
Lemma GET_whitespace_city_counterexample :
  trim " " = "" /\
  exists d s',
    GET (answering no_keys (wttr_payload (VStr "40"))) (req " ") st0
      = (Normal (found d), s') /\
    found d <> invalid_input /\
    invoked (trace s') = ["getWeatherFromOpenWeather"; "getWeatherFromWttrIn"] /\
    fetched (trace s') = [WttrIn_call " "] /\
    is_Some (cache s' !! cacheKey_of " ").
Proof.
  split; [reflexivity|].
  eexists _, _. split; [vm_compute; reflexivity|].
  split; [discriminate|]. split; [reflexivity|]. split; [reflexivity|].
  eexists. vm_compute. reflexivity.
Qed.


(** A run of the loop is never silent. *)
Lemma for_apis_chain_not_silent w c k s r :
  for_apis w apis c k s <> (r, s).
Proof.
  intros H.
  destruct (for_apis_chain_effect w c k s)
    as (r' & s' & evs & Hrun & Htr & _ & _ & Hfe & _).
  rewrite H in Hrun. injection Hrun as _ <-.
  rewrite <- (app_nil_r (trace s)) in Htr at 1.
  apply app_inv_head in Htr. subst evs. contradiction.
Qed.

(** After a lookup that answered with a snapshot, the cache holds it. *)
Lemma GET_found_cached w request s d s1 :
  GET w request s = (Normal (found d), s1) ->
  exists c e,
    searchParams_get (searchParams request) "city" = Some c /\ c <> "" /\
    cache s1 !! cacheKey_of c = Some e /\ data e = d.
Proof.
  intros H1.
  destruct (GET_effect w request s) as (r & s' & evs & Hrun & _ & Hcases).
  rewrite H1 in Hrun. injection Hrun as <- <-.
  destruct Hcases as [[_ ->]|(c & Hc & Hne & _ & Hcache & _)].
  - destruct (searchParams_get (searchParams request) "city") as [c|] eqn:Hc.
    2: { rewrite GET_no_city in H1 by exact Hc. discriminate. }
    destruct (decide (c = "")) as [->|Hne].
    { rewrite GET_empty_city in H1 by exact Hc. discriminate. }
    rewrite (GET_city w request c s Hc Hne) in H1.
    destruct (cache s !! cacheKey_of c) as [e|] eqn:He.
    + destruct (clock s - timestamp e <? CACHE_DURATION).
      * exists c, e. injection H1 as H1. auto.
      * apply for_apis_chain_not_silent in H1. contradiction.
    + apply for_apis_chain_not_silent in H1. contradiction.
  - destruct Hcache as [[Hu _]|(d' & Hd & Hcache)]; [discriminate|].
    injection Hd as <-. exists c, {| data := d; timestamp := clock s1 |}.
    rewrite Hcache, lookup_insert_eq. auto.
Qed.

(** Two lookups in a row: when the second one calls no adapter, it answers
    with the snapshot the first one answered with. *)
Lemma GET_twice_same_snapshot w1 w2 request s d s1 now r2 s2 :
  GET w1 request s = (Normal (found d), s1) ->
  GET w2 request {| cache := cache s1; clock := now; trace := [] |} = (Normal r2, s2) ->
  invoked (trace s2) = [] ->
  r2 = found d /\ cache s2 = cache s1.
Proof.
  intros H1 H2 Hinv.
  destruct (GET_found_cached w1 request s d s1 H1) as (c & e & Hc & Hne & He & Hd).
  destruct (GET_effect w2 request {| cache := cache s1; clock := now; trace := [] |})
    as (r & s' & evs & Hrun & Htr & Hcases).
  rewrite H2 in Hrun. injection Hrun as <- <-.
  destruct Hcases as [[_ ->]|(c' & Hc' & _ & _ & _ & (n & Hn) & _)].
  - rewrite (GET_city w2 request c _ Hc Hne) in H2. cbn [cache clock] in H2.
    rewrite He in H2.
    destruct (now - timestamp e <? CACHE_DURATION).
    + injection H2 as <-. subst d. auto.
    + apply for_apis_chain_not_silent in H2. contradiction.
  - simpl in Htr. rewrite Htr, Hn in Hinv. discriminate.
Qed.


(** C3 (as amended): the freshness window is 300000 ms and a cache entry is
    stale, and ignored, exactly when now - fetchedAt >= 5 minutes.  While
    now - fetchedAt < 5 minutes the lookup is served from the cache and
    nothing else happens; from exactly 5 minutes on (so also at 5 minutes
    + 1 ms) the lookup calls the first adapter of the chain and fetches
    from an upstream service. *)
Theorem cache_entry_stale_from_five_minutes
    (w : World) (request : NextRequest) (c : string) (s : State) (e : CacheData) :
  searchParams_get (searchParams request) "city" = Some c ->
  c <> "" ->
  cache s !! cacheKey_of c = Some e ->
  CACHE_DURATION = 300000 /\
  (clock s - timestamp e < CACHE_DURATION ->
     GET w request s = (Normal (found (data e)), s)) /\
  (CACHE_DURATION <= clock s - timestamp e ->
     exists r s' evs rest,
       GET w request s = (Normal r, s') /\
       trace s' = trace s ++ evs /\
       invoked evs = "getWeatherFromOpenWeather" :: rest /\
       fetched evs <> []).
Proof.
  intros Hc Hne He. split; [reflexivity|]. split.
  - intros Hlt. exact (GET_fresh w request c s e Hc Hne He Hlt).
  - intros Hge.
    assert (Hf : fresh s c = false).
    { unfold fresh. rewrite He. apply Z.ltb_ge. exact Hge. }
    rewrite (GET_not_fresh w request c s Hc Hne Hf).
    destruct (for_apis_chain_effect w c (cacheKey_of c) s)
      as (r & s' & evs & Hrun & Htr & _ & (n & Hn) & Hfe & _).
    exists r, s', evs, (take n ["getWeatherFromWttrIn"]). auto.
Qed.

Lemma cache_entry_stale_from_five_minutes_witness :
  exists e,
    cache (served_once 0) !! cacheKey_of "Paris" = Some e /\
    timestamp e = 1120 /\
    GET (failing no_keys) (req "Paris") (served_once (1120 + 299999))
      = (Normal (found (data e)), served_once (1120 + 299999)) /\
    (exists r s' evs rest,
       GET (failing no_keys) (req "Paris") (served_once (1120 + 300001))
         = (Normal r, s') /\
       trace s' = [] ++ evs /\
       invoked evs = "getWeatherFromOpenWeather" :: rest /\
       fetched evs <> []).
Proof.
  eexists. split; [vm_compute; reflexivity|]. split; [reflexivity|]. split.
  - refine (proj1 (proj2 (cache_entry_stale_from_five_minutes
             (failing no_keys) (req "Paris") "Paris" (served_once (1120 + 299999)) _
             _ _ _)) _).
    + reflexivity.
    + discriminate.
    + vm_compute. reflexivity.
    + reflexivity.
  - refine (proj2 (proj2 (cache_entry_stale_from_five_minutes
             (failing no_keys) (req "Paris") "Paris" (served_once (1120 + 300001)) _
             _ _ _)) _).
    + reflexivity.
    + discriminate.
    + vm_compute. reflexivity.
    + discriminate.
Defined.

(** C3 (as stated) fails at the boundary: an entry fetched exactly five
    minutes ago is not served; the chain is run, wttr.in is fetched, and
    the answer is the new snapshot, not the cached one. *)
Lemma exactly_five_minutes_counterexample :
  exists e d s',
    cache (served_once 301120) !! cacheKey_of "Paris" = Some e /\
    clock (served_once 301120) - timestamp e = 5 * 60 * 1000 /\
    GET (answering no_keys (wttr_payload (VStr "55"))) (req "Paris")
        (served_once 301120) = (Normal (found d), s') /\
    d <> data e /\
    invoked (trace s') = ["getWeatherFromOpenWeather"; "getWeatherFromWttrIn"] /\
    fetched (trace s') = [WttrIn_call "Paris"].
Proof.
  eexists _, _, _. split; [vm_compute; reflexivity|]. split; [reflexivity|].
  split; [vm_compute; reflexivity|]. split; [discriminate|].
  split; reflexivity.
Qed.

(** ** Claims about the fallback chain *)

Lemma apis_split pre api post :
  apis = pre ++ api :: post ->
  (pre = [] /\ api = OpenWeather_api /\ post = [WttrIn_api]) \/
  (pre = [OpenWeather_api] /\ api = WttrIn_api /\ post = []).
Proof.
  unfold apis. intros H.
  destruct pre as [|a [|b pre]]; simpl in H.
  - injection H as <- <-. auto.
  - injection H as <- <- <-. auto.
  - injection H as _ _ H. destruct pre; discriminate.
Qed.

(** The adapters never write the cache, and all they add to the trace are
    their own network calls. *)
Lemma adapter_frame api w c s r s' :
  api ∈ [OpenWeather_api; WeatherAPI_api; WttrIn_api] ->
  api_call api w c s = (r, s') ->
  cache s' = cache s /\
  exists evs, trace s' = trace s ++ evs /\ invoked evs = [].
Proof.
  intros Hin Hrun.
  assert (Hs : s' = s \/ exists call, s' = after_fetch w s call).
  { repeat (apply elem_of_cons in Hin as [->|Hin]); [| | |by apply elem_of_nil in Hin];
      simpl in Hrun.
    - rewrite getWeatherFromOpenWeather_run in Hrun.
      destruct (OPENWEATHER_API_KEY (env w)) as [[|a key]|];
        injection Hrun as _ <-; eauto.
    - rewrite getWeatherFromWeatherAPI_run in Hrun.
      destruct (WEATHERAPI_KEY (env w)) as [[|a key]|];
        injection Hrun as _ <-; eauto.
    - rewrite getWeatherFromWttrIn_run in Hrun. injection Hrun as _ <-. eauto. }
  destruct Hs as [->|[call ->]].
  - split; [reflexivity|]. exists []. rewrite app_nil_r. auto.
  - split; [reflexivity|]. exists [EvFetch call]. auto.
Qed.

Lemma invoked_app l1 l2 : invoked (l1 ++ l2) = invoked l1 ++ invoked l2.
Proof. unfold invoked. apply omap_app. Qed.

(** C4: for every city that is not empty and is not answered from the
    cache, the first adapter of the chain that succeeds, after those
    before it have failed, decides the lookup: its snapshot is the answer,
    the cache entry of the city is overwritten with that snapshot and the
    time it was stored at, and the adapters after it are not called.  With
    the first adapter failing and the second succeeding, the answer and
    the cache entry are the second adapter's. *)
Theorem first_successful_adapter_answers_and_is_cached
    (w : World) (request : NextRequest) (c : string)
    (pre post : list Api) (api : Api) (s s1 s2 : State) (d : WeatherData) :
  searchParams_get (searchParams request) "city" = Some c ->
  c <> "" ->
  fresh s c = false ->
  apis = pre ++ api :: post ->
  all_fail w c pre s s1 ->
  api_call api w c (logged s1 [EvInvoke (api_name api)]) = (Normal d, s2) ->
  exists s',
    GET w request s = (Normal (found d), s') /\
    cache s' = <[cacheKey_of c := {| data := d; timestamp := clock s' |}]> (cache s) /\
    cache s' !! cacheKey_of c = Some {| data := d; timestamp := clock s' |} /\
    invoked (trace s') = invoked (trace s) ++ map api_name (pre ++ [api]).
Proof.
  intros Hc Hne Hf Hsplit Hpre Hok.
  exists (stored (cacheKey_of c) d s2).
  assert (Hrun : GET w request s = (Normal (found d), stored (cacheKey_of c) d s2)).
  { rewrite (GET_not_fresh w request c s Hc Hne Hf), Hsplit.
    exact (for_apis_first_success w c _ pre api post s s1 s2 d Hpre Hok). }
  assert (Hframe : cache s2 = cache s /\
            invoked (trace s2) = invoked (trace s) ++ map api_name (pre ++ [api])).
  { destruct (apis_split pre api post Hsplit) as [(-> & -> & _)|(-> & -> & _)].
    - inversion Hpre; subst.
      destruct (adapter_frame OpenWeather_api w c _ _ _ ltac:(set_solver) Hok)
        as (Hcache & evs & Htr & Hinv).
      split; [exact Hcache|].
      rewrite Htr. simpl trace. rewrite !invoked_app, Hinv. simpl.
      rewrite app_nil_r. reflexivity.
    - inversion Hpre as [|a rest s' sa sb e Hfail Hrest]; subst.
      inversion Hrest; subst.
      destruct (adapter_frame OpenWeather_api w c _ _ _ ltac:(set_solver) Hfail)
        as (Hcache1 & evs1 & Htr1 & Hinv1).
      destruct (adapter_frame WttrIn_api w c _ _ _ ltac:(set_solver) Hok)
        as (Hcache2 & evs2 & Htr2 & Hinv2).
      split; [rewrite Hcache2; exact Hcache1|].
      rewrite Htr2. simpl trace. rewrite Htr1. simpl trace.
      rewrite !invoked_app, Hinv1, Hinv2. simpl.
      rewrite <- !app_assoc. reflexivity. }
  destruct Hframe as [Hcache Hinv].
  split; [exact Hrun|]. simpl. rewrite Hcache.
  split; [reflexivity|]. split; [apply lookup_insert_eq|exact Hinv].
Qed.

Lemma first_successful_adapter_answers_and_is_cached_witness :
  exists d s',
    GET (answering no_keys (wttr_payload (VStr "40"))) (req "Paris") st0
      = (Normal (found d), s') /\
    name d = VStr "Paris" /\
    cache s' !! cacheKey_of "Paris" = Some {| data := d; timestamp := clock s' |} /\
    invoked (trace s') = ["getWeatherFromOpenWeather"; "getWeatherFromWttrIn"].
Proof.
  pose (w := answering no_keys (wttr_payload (VStr "40"))).
  eassert (Hpre : all_fail w "Paris" [OpenWeather_api] st0 _).
  { eapply all_fail_cons; [vm_compute; reflexivity | apply all_fail_nil]. }
  eassert (Hok : api_call WttrIn_api w "Paris" (logged _ [EvInvoke (api_name WttrIn_api)])
                 = (Normal _, _)).
  { vm_compute. reflexivity. }
  destruct (first_successful_adapter_answers_and_is_cached
              w (req "Paris") "Paris" [OpenWeather_api] [] WttrIn_api st0 _ _ _
              eq_refl ltac:(discriminate) eq_refl eq_refl Hpre Hok)
    as (s' & H1 & _ & H3 & H4).
  eexists _, s'. split; [exact H1|]. split; [reflexivity|].
  split; [exact H3|exact H4].
Defined.

(** A lookup that does not answer with a snapshot leaves the cache as it was. *)
Lemma GET_failure_keeps_cache w request s r s' :
  GET w request s = (Normal r, s') ->
  http_status r <> 200 ->
  cache s' = cache s.
Proof.
  intros Hrun Hst.
  destruct (GET_effect w request s) as (r0 & s0 & evs & H & _ & Hcases).
  rewrite Hrun in H. injection H as <- <-.
  destruct Hcases as [[_ ->]|(c & _ & _ & _ & [[_ Hc]|(d & -> & _)] & _)];
    [reflexivity | exact Hc | contradiction Hst; reflexivity].
Qed.

(** C5: for every city that is not empty and is not answered from the
    cache, when every adapter of the chain fails the lookup answers with
    the one unavailable error, status 503, whatever the adapters' own
    errors were; these are only logged, one warning for each adapter; and
    the cache is left exactly as it was. *)
Theorem all_adapters_fail_unavailable_cache_unchanged
    (w : World) (request : NextRequest) (c : string) (s s' : State) :
  searchParams_get (searchParams request) "city" = Some c ->
  c <> "" ->
  fresh s c = false ->
  all_fail w c apis s s' ->
  GET w request s = (Normal unavailable, s') /\
  http_status unavailable = 503 /\
  cache s' = cache s /\
  exists e1 e2,
    EvWarn "getWeatherFromOpenWeather" e1 ∈ trace s' /\
    EvWarn "getWeatherFromWttrIn" e2 ∈ trace s'.
Proof.
  intros Hc Hne Hf Hall.
  assert (Hrun : GET w request s = (Normal unavailable, s')).
  { rewrite (GET_not_fresh w request c s Hc Hne Hf).
    apply for_apis_all_fail. exact Hall. }
  split; [exact Hrun|]. split; [reflexivity|].
  split; [apply (GET_failure_keeps_cache w request s unavailable s' Hrun); discriminate|].
  unfold apis in Hall.
  inversion Hall as [|a1 r1 sa sb sc e1 Hf1 Hrest]; subst.
  inversion Hrest as [|a2 r2 sa' sb' sc' e2 Hf2 Hnil]; subst.
  inversion Hnil; subst.
  destruct (adapter_frame WttrIn_api w c _ _ _ ltac:(set_solver) Hf2)
    as (_ & evs & Htr & _).
  exists e1, e2. simpl trace. rewrite Htr. simpl trace. set_solver.
Qed.

Lemma all_adapters_fail_unavailable_cache_unchanged_witness :
  exists s',
    GET (failing no_keys) (req "Paris") (served_once 400000)
      = (Normal unavailable, s') /\
    cache s' = cache (served_once 400000) /\
    fetched (trace s') = [WttrIn_call "Paris"].
Proof.
  pose (w := failing no_keys).
  eassert (Hall : all_fail w "Paris" apis (served_once 400000) _).
  { eapply all_fail_cons; [vm_compute; reflexivity|].
    eapply all_fail_cons; [vm_compute; reflexivity|]. apply all_fail_nil. }
  destruct (all_adapters_fail_unavailable_cache_unchanged
              w (req "Paris") "Paris" (served_once 400000) _
              eq_refl ltac:(discriminate) eq_refl Hall)
    as (H1 & _ & H3 & _).
  eexists. split; [exact H1|]. split; [exact H3|reflexivity].
Defined.

(** C7: each keyed adapter, called without its credential (the variable is
    unset or empty), throws its configuration error at once and leaves
    the state as it was, so nothing has been fetched.  In the fallback
    loop this only disables the provider: the loop logs the failure and
    goes on with the adapters that follow, and the endpoint always
    answers, it never throws. *)
Theorem missing_credential_disables_adapter
    (w : World) (c : string) (s : State) :
  (key_absent (OPENWEATHER_API_KEY (env w)) ->
     getWeatherFromOpenWeather w c s
       = (Throw (Error "OpenWeather API密钥未配置"), s) /\
     forall rest k,
       for_apis w (OpenWeather_api :: rest) c k s =
       for_apis w rest c k
         (logged s [EvInvoke "getWeatherFromOpenWeather";
                    EvWarn "getWeatherFromOpenWeather"
                      (Error "OpenWeather API密钥未配置")])) /\
  (key_absent (WEATHERAPI_KEY (env w)) ->
     getWeatherFromWeatherAPI w c s
       = (Throw (Error "WeatherAPI密钥未配置"), s) /\
     forall rest k,
       for_apis w (WeatherAPI_api :: rest) c k s =
       for_apis w rest c k
         (logged s [EvInvoke "getWeatherFromWeatherAPI";
                    EvWarn "getWeatherFromWeatherAPI"
                      (Error "WeatherAPI密钥未配置")])) /\
  (forall request, exists r s', GET w request s = (Normal r, s')).
Proof.
  assert (Hlog : forall a b, logged (logged s [a]) [b] = logged s [a; b]).
  { intros a b. unfold logged. simpl. rewrite <- app_assoc. reflexivity. }
  split; [|split].
  - intros Habs.
    assert (Hrun : forall s0, getWeatherFromOpenWeather w c s0
                     = (Throw (Error "OpenWeather API密钥未配置"), s0)).
    { intros s0. rewrite getWeatherFromOpenWeather_run.
      destruct Habs as [-> | ->]; reflexivity. }
    split; [apply Hrun|]. intros rest k.
    rewrite for_apis_cons. simpl api_call. simpl api_name.
    rewrite Hrun, Hlog. reflexivity.
  - intros Habs.
    assert (Hrun : forall s0, getWeatherFromWeatherAPI w c s0
                     = (Throw (Error "WeatherAPI密钥未配置"), s0)).
    { intros s0. rewrite getWeatherFromWeatherAPI_run.
      destruct Habs as [-> | ->]; reflexivity. }
    split; [apply Hrun|]. intros rest k.
    rewrite for_apis_cons. simpl api_call. simpl api_name.
    rewrite Hrun, Hlog. reflexivity.
  - intros request. apply GET_answers.
Qed.

Lemma missing_credential_disables_adapter_witness :
  getWeatherFromOpenWeather (answering no_keys (wttr_payload (VStr "40"))) "Paris" st0
    = (Throw (Error "OpenWeather API密钥未配置"), st0) /\
  getWeatherFromWeatherAPI (answering no_keys (wttr_payload (VStr "40"))) "Paris" st0
    = (Throw (Error "WeatherAPI密钥未配置"), st0) /\
  exists d s',
    GET (answering no_keys (wttr_payload (VStr "40"))) (req "Paris") st0
      = (Normal (found d), s').
Proof.
  destruct (missing_credential_disables_adapter
              (answering no_keys (wttr_payload (VStr "40"))) "Paris" st0)
    as (H1 & H2 & _).
  split; [apply H1; left; reflexivity|].
  split; [apply H2; left; reflexivity|].
  eexists _, _. vm_compute. reflexivity.
Defined.

Lemma calls_differ key c key' c' :
  OpenWeather_call key c <> WeatherAPI_call key' c' /\
  WttrIn_call c <> WeatherAPI_call key' c'.
Proof.
  split; intros H; apply (f_equal url) in H;
    unfold OpenWeather_call, WttrIn_call, WeatherAPI_call in H;
    cbv [url String.append] in H; congruence.
Qed.

(** The adapters a run of the loop over the chain calls, and whose snapshot
    it answers with: OpenWeather, and wttr.in once OpenWeather has thrown. *)
Lemma for_apis_chain_invoked w c k s :
  exists r s' evs,
    for_apis w apis c k s = (Normal r, s') /\
    trace s' = trace s ++ evs /\
    match getWeatherFromOpenWeather w c
            (logged s [EvInvoke "getWeatherFromOpenWeather"]) with
    | (Normal d, _) =>
        invoked evs = ["getWeatherFromOpenWeather"] /\ r = found d
    | (Throw e1, s1) =>
        invoked evs = ["getWeatherFromOpenWeather"; "getWeatherFromWttrIn"] /\
        match getWeatherFromWttrIn w c
                (logged (logged s1 [EvWarn "getWeatherFromOpenWeather" e1])
                        [EvInvoke "getWeatherFromWttrIn"]) with
        | (Normal d, _) => r = found d
        | (Throw _, _) => r = unavailable
        end
    end.
Proof.
  rewrite for_apis_chain.
  destruct (getWeatherFromOpenWeather w c _) as [[d1|e1] s1] eqn:H1;
    destruct (adapter_frame OpenWeather_api w c _ _ _ ltac:(set_solver) H1)
      as (_ & evs1 & Htr1 & Hinv1); simpl trace in Htr1.
  - eexists _, _, ([EvInvoke "getWeatherFromOpenWeather"] ++ evs1).
    split; [reflexivity|]. simpl trace. rewrite Htr1, <- app_assoc.
    split; [reflexivity|]. rewrite invoked_app, Hinv1. auto.
  - destruct (getWeatherFromWttrIn w c _) as [[d2|e2] s2] eqn:H2;
      destruct (adapter_frame WttrIn_api w c _ _ _ ltac:(set_solver) H2)
        as (_ & evs2 & Htr2 & Hinv2); simpl trace in Htr2; rewrite Htr1 in Htr2.
    + eexists _, _, ([EvInvoke "getWeatherFromOpenWeather"] ++ evs1 ++
                     [EvWarn "getWeatherFromOpenWeather" e1] ++
                     [EvInvoke "getWeatherFromWttrIn"] ++ evs2).
      split; [reflexivity|]. simpl trace. rewrite Htr2, <- !app_assoc.
      split; [reflexivity|]. rewrite !invoked_app, Hinv1, Hinv2. auto.
    + eexists _, _, ([EvInvoke "getWeatherFromOpenWeather"] ++ evs1 ++
                     [EvWarn "getWeatherFromOpenWeather" e1] ++
                     [EvInvoke "getWeatherFromWttrIn"] ++ evs2 ++
                     [EvWarn "getWeatherFromWttrIn" e2]).
      split; [reflexivity|]. simpl trace. rewrite Htr2, <- !app_assoc.
      split; [reflexivity|]. rewrite !invoked_app, Hinv1, Hinv2. auto.
Qed.

(** C10: the fallback chain of the endpoint is the OpenWeather adapter
    followed by the wttr.in adapter, and nothing else.  A lookup that is
    not answered at once (a city that is not empty, no fresh cache entry)
    calls OpenWeather first; when OpenWeather returns a snapshot that is
    the answer and nothing else is called; when it throws, wttr.in is
    called next, and its snapshot, or the unavailable error when it throws
    too, is the answer.  A request that is answered at once calls no
    adapter.  So, whatever the request, the WeatherAPI adapter is not
    called, no call goes to WeatherAPI's address, and the lookup does not
    depend on WeatherAPI's credential. *)
Theorem chain_is_OpenWeather_then_WttrIn
    (w : World) (request : NextRequest) (s : State) :
  apis = [OpenWeather_api; WttrIn_api] /\
  (exists r s' evs,
     GET w request s = (Normal r, s') /\
     trace s' = trace s ++ evs /\
     (forall c,
        searchParams_get (searchParams request) "city" = Some c ->
        c <> "" ->
        fresh s c = false ->
        match getWeatherFromOpenWeather w c
                (logged s [EvInvoke "getWeatherFromOpenWeather"]) with
        | (Normal d, _) =>
            invoked evs = ["getWeatherFromOpenWeather"] /\ r = found d
        | (Throw e1, s1) =>
            invoked evs = ["getWeatherFromOpenWeather"; "getWeatherFromWttrIn"] /\
            match getWeatherFromWttrIn w c
                    (logged (logged s1 [EvWarn "getWeatherFromOpenWeather" e1])
                            [EvInvoke "getWeatherFromWttrIn"]) with
            | (Normal d, _) => r = found d
            | (Throw _, _) => r = unavailable
            end
        end) /\
     ((searchParams_get (searchParams request) "city" = None \/
       searchParams_get (searchParams request) "city" = Some "" \/
       exists c, searchParams_get (searchParams request) "city" = Some c /\
                 fresh s c = true) ->
      invoked evs = []) /\
     ~ (api_name WeatherAPI_api ∈ invoked evs) /\
     (forall call key c, call ∈ fetched evs -> call <> WeatherAPI_call key c)) /\
  (forall k, GET (with_WEATHERAPI_KEY w k) request s = GET w request s).
Proof.
  split; [reflexivity|]. split; [|intros k; reflexivity].
  destruct (GET_effect w request s) as (r & s' & evs & Hrun & Htr & Hcases).
  exists r, s', evs. split; [exact Hrun|]. split; [exact Htr|].
  destruct Hcases as [[-> ->]|(c & Hc & Hne & Hf & _ & _ & _ & Hcalls)].
  - split; [|split; [reflexivity|split]].
    + intros c Hc Hne Hf. exfalso.
      rewrite (GET_not_fresh w request c s Hc Hne Hf) in Hrun.
      destruct (for_apis_chain_invoked w c (cacheKey_of c) s)
        as (r1 & s1 & evs1 & Hrun1 & Htr1 & Hinv1).
      rewrite Hrun in Hrun1. injection Hrun1 as <- <-.
      rewrite <- (app_nil_r (trace s)) in Htr1 at 1.
      apply app_inv_head in Htr1. subst evs1.
      destruct (getWeatherFromOpenWeather w c _) as [[d1|e1] s1];
        destruct Hinv1 as [Hinv1 _]; discriminate Hinv1.
    + apply not_elem_of_nil.
    + intros call key c Hin. apply elem_of_nil in Hin. contradiction.
  - rewrite (GET_not_fresh w request c s Hc Hne Hf) in Hrun.
    destruct (for_apis_chain_invoked w c (cacheKey_of c) s)
      as (r1 & s1 & evs1 & Hrun1 & Htr1 & Hinv1).
    rewrite Hrun in Hrun1. injection Hrun1 as <- <-.
    rewrite Htr in Htr1. apply app_inv_head in Htr1. subst evs1.
    split; [|split; [|split]].
    + intros c' Hc' _ _. rewrite Hc in Hc'. injection Hc' as <-. exact Hinv1.
    + intros [H|[H|(c' & Hc' & Hf')]]; rewrite Hc in H || rewrite Hc in Hc';
        try discriminate.
      * injection H as ->. contradiction Hne. reflexivity.
      * injection Hc' as <-. rewrite Hf in Hf'. discriminate.
    + assert (Hin : invoked evs = ["getWeatherFromOpenWeather"] \/
                    invoked evs = ["getWeatherFromOpenWeather"; "getWeatherFromWttrIn"]).
      { destruct (getWeatherFromOpenWeather w c _) as [[d1|e1] s1];
          destruct Hinv1 as [Hinv1 _]; auto. }
      destruct Hin as [-> | ->]; intros Hin;
        repeat (apply elem_of_cons in Hin as [Hin|Hin]; [discriminate Hin|]);
        apply elem_of_nil in Hin; contradiction.
    + intros call key c' Hin.
      destruct (Hcalls call Hin) as [[key' ->]| ->];
        [exact (proj1 (calls_differ key' c key c'))
        |exact (proj2 (calls_differ key c key c'))].
Qed.

Lemma chain_is_OpenWeather_then_WttrIn_witness :
  (exists d s',
     GET (answering both_keys (OpenWeather_payload (lit 12) (lit 50))) (req "Paris") st0
       = (Normal (found d), s') /\
     invoked (trace s') = ["getWeatherFromOpenWeather"]) /\
  (exists d s',
     GET (answering no_keys (wttr_payload (VStr "40"))) (req "Paris") st0
       = (Normal (found d), s') /\
     invoked (trace s') = ["getWeatherFromOpenWeather"; "getWeatherFromWttrIn"]).
Proof.
  split.
  - destruct (chain_is_OpenWeather_then_WttrIn
                (answering both_keys (OpenWeather_payload (lit 12) (lit 50)))
                (req "Paris") st0)
      as (_ & (r & s' & evs & Hrun & Htr & Hcase & _) & _).
    specialize (Hcase "Paris" eq_refl ltac:(discriminate) eq_refl).
    eassert (H1 : getWeatherFromOpenWeather
                    (answering both_keys (OpenWeather_payload (lit 12) (lit 50)))
                    "Paris" (logged st0 [EvInvoke "getWeatherFromOpenWeather"])
                  = (Normal _, _)) by (vm_compute; reflexivity).
    rewrite H1 in Hcase. destruct Hcase as [Hinv ->].
    eexists _, s'. split; [exact Hrun|]. rewrite Htr. exact Hinv.
  - destruct (chain_is_OpenWeather_then_WttrIn
                (answering no_keys (wttr_payload (VStr "40"))) (req "Paris") st0)
      as (_ & (r & s' & evs & Hrun & Htr & Hcase & _) & _).
    specialize (Hcase "Paris" eq_refl ltac:(discriminate) eq_refl).
    eassert (H1 : getWeatherFromOpenWeather
                    (answering no_keys (wttr_payload (VStr "40")))
                    "Paris" (logged st0 [EvInvoke "getWeatherFromOpenWeather"])
                  = (Throw _, _)) by (vm_compute; reflexivity).
    rewrite H1 in Hcase. destruct Hcase as [Hinv Hr].
    eassert (H2 : getWeatherFromWttrIn
                    (answering no_keys (wttr_payload (VStr "40"))) "Paris" _
                  = (Normal _, _)) by (vm_compute; reflexivity).
    rewrite H2 in Hr. subst r.
    eexists _, s'. split; [exact Hrun|]. rewrite Htr. exact Hinv.
Defined.

(** ** Rounding *)

Lemma Qof_whole z : Qof (Dec z 0) == inject_Z z.
Proof. unfold Qof. simpl. ring. Qed.

Lemma Qof_tenths z : Qof (Dec z (-1)) == z # 10.
Proof.
  unfold Qof. simpl mant. simpl expo.
  change (Qpower 10 (-1)) with (/ 10)%Q.
  rewrite (Qmake_Qdiv z 10). reflexivity.
Qed.

Lemma Qof_mul a b : Qof (dec_mul a b) == Qof a * Qof b.
Proof.
  unfold Qof, dec_mul. simpl mant. simpl expo.
  rewrite inject_Z_mult, Qpower_plus by discriminate. ring.
Qed.

Lemma Math_round_whole x : finite (Math_round x) -> whole (Math_round x).
Proof.
  destruct x as [d| | |]; simpl; try contradiction.
  intros _. eexists. apply Qof_whole.
Qed.

Lemma round_tenths x :
  finite (num_div10 (Math_round x)) -> tenths (num_div10 (Math_round x)).
Proof.
  destruct x as [d| | |]; simpl; try contradiction.
  intros _. eexists. apply Qof_tenths.
Qed.


(** ** Conversions *)

(** A conversion to a string throws, a TypeError, exactly on a value that
    is, or holds in an array, an object with a [toString] of its own. *)
Lemma ToString_by_coercible v :
  match ToString v with
  | Normal _ => coercible v = true
  | Throw e => coercible v = false /\ e = TypeError
  end.
Proof.
  revert v. fix IH 1. intros [| |[|]|n|str|l|fs]; try reflexivity.
  - cbn [ToString coercible].
    induction l as [|x r IHr]; [reflexivity|].
    assert (Hx : match (match x with VUndef | VNull => Normal "" | _ => ToString x end) with
                 | Normal _ => coercible x = true
                 | Throw e => coercible x = false /\ e = TypeError
                 end).
    { pose proof (IH x) as Hx. destruct x; try exact Hx; reflexivity. }
    destruct (match x with VUndef | VNull => Normal "" | _ => ToString x end) as [sx|e].
    + rewrite Hx. cbn [bind_c andb].
      destruct r as [|y r']; [reflexivity|].
      match type of IHr with match ?c with _ => _ end => destruct c as [sr|e] end;
        cbn [bind_c]; exact IHr.
    + destruct Hx as [-> ->]. cbn [bind_c andb]. auto.
  - cbn [ToString coercible]. destruct (has_own "toString" fs); simpl; auto.
Qed.

Lemma ToNumber_by_coercible v :
  match ToNumber v with
  | Normal _ => coercible v = true
  | Throw e => coercible v = false /\ e = TypeError
  end.
Proof.
  pose proof (ToString_by_coercible v) as H.
  destruct v; try reflexivity; unfold ToNumber;
    match type of H with match ?c with _ => _ end => destruct c end; exact H.
Qed.

Lemma parseFloat_by_coercible v :
  match parseFloat v with
  | Normal _ => coercible v = true
  | Throw e => coercible v = false /\ e = TypeError
  end.
Proof.
  pose proof (ToString_by_coercible v) as H. unfold parseFloat.
  destruct (ToString v); exact H.
Qed.

Lemma js_mul_by_coercible v n :
  match js_mul v (VNum n) with
  | Normal _ => coercible v = true
  | Throw e => coercible v = false /\ e = TypeError
  end.
Proof.
  pose proof (ToNumber_by_coercible v) as H. unfold js_mul.
  destruct (ToNumber v); exact H.
Qed.

Lemma js_sub_by_coercible v n :
  match js_sub v (VNum n) with
  | Normal _ => coercible v = true
  | Throw e => coercible v = false /\ e = TypeError
  end.
Proof.
  pose proof (ToNumber_by_coercible v) as H. unfold js_sub.
  destruct (ToNumber v); exact H.
Qed.

(** [v + n] for a number [n] is a number or a string, so that its conversion
    to a number cannot throw. *)
Lemma js_add_by_coercible v n :
  match js_add v (VNum n) with
  | Normal sum => coercible v = true /\ exists x, ToNumber sum = Normal x
  | Throw e => coercible v = false /\ e = TypeError
  end.
Proof.
  pose proof (ToString_by_coercible v) as H. unfold js_add.
  destruct v as [| |[|]|m|str|l|fs].
  1-6: cbn [ToPrimitive bind_c ToString ToNumber];
    split; [reflexivity|eexists; reflexivity].
  all: unfold ToPrimitive;
    match type of H with match ?c with _ => _ end => destruct c end;
    cbn [ToPrimitive bind_c ToString ToNumber]; try exact H;
    (split; [exact H|eexists; reflexivity]).
Qed.

(** ** What the adapters make of a payload *)

Lemma get_Normal v k : nullish v = false -> get v k = Normal (prop v k).
Proof. intros H. unfold get. rewrite H. reflexivity. Qed.

Lemma get_Throw v k : nullish v = true -> get v k = Throw TypeError.
Proof. intros H. unfold get. rewrite H. reflexivity. Qed.

Lemma current_of_not_nullish payload : nullish (current_of payload) = false.
Proof.
  unfold current_of, or_.
  destruct (truthy (opt_get0 (prop payload "current_condition"))) eqn:Ht;
    [|reflexivity].
  destruct (opt_get0 (prop payload "current_condition")); try discriminate;
    reflexivity.
Qed.


Lemma WeatherAPI_result_Normal payload d :
  WeatherAPI_result payload = Normal d ->
  exists v_t t fl lo sum hi v_kph mps i,
    get2 payload "current" "temp_c" = Normal v_t /\
    ToNumber v_t = Normal t /\
    js_sub v_t (lit 2) = Normal lo /\
    js_add v_t (lit 2) = Normal sum /\
    ToNumber sum = Normal hi /\
    get2 payload "current" "humidity" = Normal (humidity (main d)) /\
    get2 payload "current" "wind_kph" = Normal v_kph /\
    js_mul v_kph lit_0_27778 = Normal mps /\
    main d = {| temp := Math_round t;
                feels_like := Math_round fl;
                humidity := humidity (main d);
                temp_min := Math_round lo;
                temp_max := Math_round hi |} /\
    wind d = {| speed := num_div10 (Math_round (num_mul mps (of_Z 10))) |} /\
    weather d = [i].
Proof.
  intros H. bind_steps H. subst d. simpl.
  repeat match goal with
         | H1 : ?x = Normal ?a, H2 : ?x = Normal ?b |- _ =>
             rewrite H1 in H2; injection H2 as <-
         end.
  eauto 20.
Qed.

(** The wttr.in mapping on a payload other than [null]: the six calls of
    [parseFloat] on what the payload holds, or 0, went well, and the
    snapshot is built from their results. *)
Lemma WttrIn_result_Normal payload c d :
  WttrIn_result payload c = Normal d ->
  let current := current_of payload in
  let days := prop payload "weather" in
  let desc := prop current "weatherDesc" in
  nullish payload = false /\
  exists t fl h lo hi kmph,
    parseFloat (or_ (prop current "temp_C") (lit 0)) = Normal t /\
    parseFloat (or_ (prop current "FeelsLikeC") (lit 0)) = Normal fl /\
    parseFloat (or_ (prop current "humidity") (lit 0)) = Normal h /\
    parseFloat (or_ (or_ (opt_get (opt_get0 days) "mintempC")
                         (prop current "temp_C")) (lit 0)) = Normal lo /\
    parseFloat (or_ (or_ (opt_get (opt_get0 days) "maxtempC")
                         (prop current "temp_C")) (lit 0)) = Normal hi /\
    parseFloat (or_ (prop current "windspeedKmph") (lit 0)) = Normal kmph /\
    d = {|
      name := or_ (opt_get (opt_get0 (opt_get (opt_get0
                     (prop payload "nearest_area")) "areaName")) "value") (VStr c);
      main := {| temp := Math_round t;
                 feels_like := Math_round fl;
                 humidity := VNum h;
                 temp_min := Math_round lo;
                 temp_max := Math_round hi |};
      weather := [{|
        weather_main := or_ (opt_get (opt_get0 desc) "value") (VStr "未知");
        description := or_ (opt_get (opt_get0 desc) "value") (VStr "未知天气");
        icon := or_ (opt_get (opt_get0 (prop current "weatherIconUrl")) "value")
                    (VStr "")
      |}];
      wind := {| speed := num_div10 (Math_round
                   (num_mul (num_mul kmph num_0_27778) (of_Z 10))) |}
    |}.
Proof.
  intros H. cbv zeta.
  destruct (nullish payload) eqn:Hn;
    [unfold WttrIn_result in H; rewrite (get_Throw _ _ Hn) in H; discriminate H|].
  split; [reflexivity|].
  unfold WttrIn_result in H.
  rewrite !(get_Normal _ _ Hn) in H. cbn [bind_c] in H.
  change (or_ (opt_get0 (prop payload "current_condition")) (VObj []))
    with (current_of payload) in H.
  rewrite !(get_Normal _ _ (current_of_not_nullish payload)) in H. cbn [bind_c] in H.
  bind_steps H. subst d.
  do 6 eexists. repeat (split; [reflexivity|]). reflexivity.
Qed.

Lemma getWeatherFromOpenWeather_Normal w c s d s' :
  getWeatherFromOpenWeather w c s = (Normal d, s') ->
  exists key st payload,
    OPENWEATHER_API_KEY (env w) = Some key /\ key <> "" /\
    s' = after_fetch w s (OpenWeather_call key c) /\
    (fetch w (OpenWeather_call key c)).2 = Responded st (Some payload) /\
    ok {| status := st; body := Some payload |} = true /\
    OpenWeather_result payload = Normal d.
Proof.
  rewrite getWeatherFromOpenWeather_run.
  destruct (OPENWEATHER_API_KEY (env w)) as [[|a key]|]; try discriminate.
  intros H. injection H as H <-.
  apply answer_Normal in H as (st & payload & Hf & Hok & Hres).
  exists (String a key), st, payload. repeat split; auto; discriminate.
Qed.

Lemma getWeatherFromWeatherAPI_Normal w c s d s' :
  getWeatherFromWeatherAPI w c s = (Normal d, s') ->
  exists key st payload,
    WEATHERAPI_KEY (env w) = Some key /\ key <> "" /\
    s' = after_fetch w s (WeatherAPI_call key c) /\
    (fetch w (WeatherAPI_call key c)).2 = Responded st (Some payload) /\
    ok {| status := st; body := Some payload |} = true /\
    WeatherAPI_result payload = Normal d.
Proof.
  rewrite getWeatherFromWeatherAPI_run.
  destruct (WEATHERAPI_KEY (env w)) as [[|a key]|]; try discriminate.
  intros H. injection H as H <-.
  apply answer_Normal in H as (st & payload & Hf & Hok & Hres).
  exists (String a key), st, payload. repeat split; auto; discriminate.
Qed.

Lemma getWeatherFromWttrIn_Normal w c s d s' :
  getWeatherFromWttrIn w c s = (Normal d, s') ->
  exists st payload,
    s' = after_fetch w s (WttrIn_call c) /\
    (fetch w (WttrIn_call c)).2 = Responded st (Some payload) /\
    ok {| status := st; body := Some payload |} = true /\
    WttrIn_result payload c = Normal d.
Proof.
  rewrite getWeatherFromWttrIn_run.
  intros H. injection H as H <-.
  apply answer_Normal in H as (st & payload & Hf & Hok & Hres).
  exists st, payload. auto.
Qed.

(** Every snapshot of an adapter has the adapters' form. *)
Lemma OpenWeather_result_shaped payload d :
  OpenWeather_result payload = Normal d -> adapter_shaped d.
Proof. intros H. bind_steps H. subst d. unfold adapter_shaped. simpl. eauto 12. Qed.

Lemma WeatherAPI_result_shaped payload d :
  WeatherAPI_result payload = Normal d -> adapter_shaped d.
Proof. intros H. bind_steps H. subst d. unfold adapter_shaped. simpl. eauto 12. Qed.

Lemma WttrIn_result_shaped payload c d :
  WttrIn_result payload c = Normal d -> adapter_shaped d.
Proof.
  intros H.
  destruct (WttrIn_result_Normal payload c d H)
    as (_ & t & fl & h & lo & hi & kmph & _ & _ & _ & _ & _ & _ & ->).
  unfold adapter_shaped. simpl. eauto 12.
Qed.

Lemma adapters_shaped w c s s' d :
  getWeatherFromOpenWeather w c s = (Normal d, s') \/
  getWeatherFromWeatherAPI w c s = (Normal d, s') \/
  getWeatherFromWttrIn w c s = (Normal d, s') ->
  adapter_shaped d.
Proof.
  intros [H|[H|H]].
  - apply getWeatherFromOpenWeather_Normal in H
      as (_ & _ & payload & _ & _ & _ & _ & _ & Hres).
    exact (OpenWeather_result_shaped _ _ Hres).
  - apply getWeatherFromWeatherAPI_Normal in H
      as (_ & _ & payload & _ & _ & _ & _ & _ & Hres).
    exact (WeatherAPI_result_shaped _ _ Hres).
  - apply getWeatherFromWttrIn_Normal in H as (_ & payload & _ & _ & _ & Hres).
    exact (WttrIn_result_shaped _ _ _ Hres).
Qed.

Lemma shaped_rounded d : adapter_shaped d -> rounded_where_finite d.
Proof.
  intros ((y1 & H1) & (y2 & H2) & (y3 & H3) & (y4 & H4) & (y5 & H5) & _).
  unfold rounded_where_finite. rewrite H1, H2, H3, H4, H5.
  repeat split; auto using Math_round_whole, round_tenths.
Qed.


(** ** Claims about the adapters *)



(** C8 (as amended): every snapshot produced by any of the three adapters
    has each temperature field passed through [Math.round] and the wind
    speed through [Math.round(x * 10) / 10]: a temperature field that is a
    finite number is a whole number, and a wind speed that is a finite
    number is a whole number of tenths. *)
Theorem adapters_round_where_finite
    (w : World) (c : string) (s s' : State) (d : WeatherData) :
  getWeatherFromOpenWeather w c s = (Normal d, s') \/
  getWeatherFromWeatherAPI w c s = (Normal d, s') \/
  getWeatherFromWttrIn w c s = (Normal d, s') ->
  rounded_where_finite d.
Proof.
  intros H. apply shaped_rounded. exact (adapters_shaped w c s s' d H).
Qed.

Lemma adapters_round_where_finite_witness :
  exists d s',
    getWeatherFromWttrIn (answering no_keys (wttr_payload (VStr "40"))) "Paris" st0
      = (Normal d, s') /\
    temp (main d) = of_Z 15 /\
    speed (wind d) = Fin (Dec 100 (-1)) /\
    rounded_where_finite d.
Proof.
  eexists _, _. split; [vm_compute; reflexivity|].
  split; [reflexivity|]. split; [reflexivity|].
  eapply (adapters_round_where_finite
            (answering no_keys (wttr_payload (VStr "40"))) "Paris" st0).
  right. right. vm_compute. reflexivity.
Defined.

(** C8 (as stated) fails: on a response of OpenWeather whose [main] object
    has no [temp], the adapter still returns a snapshot, and its [temp] is
    NaN, which is not a whole number. *)
Lemma snapshot_not_rounded_counterexample :
  exists d s',
    getWeatherFromOpenWeather
      (answering both_keys OpenWeather_payload_without_temp) "Paris" st0
      = (Normal d, s') /\
    temp (main d) = NaN /\
    ~ rounded d.
Proof.
  eexists _, _. split; [vm_compute; reflexivity|].
  split; [reflexivity|].
  intros [[z Hz] _]. exact Hz.
Qed.

(** A snapshot that is not served from the cache is the one an adapter of
    the chain has just returned. *)
Lemma GET_snapshot_origin w request c s d s' :
  searchParams_get (searchParams request) "city" = Some c ->
  c <> "" ->
  fresh s c = false ->
  GET w request s = (Normal (found d), s') ->
  (exists s0 s1, getWeatherFromOpenWeather w c s0 = (Normal d, s1)) \/
  (exists s0 s1, getWeatherFromWttrIn w c s0 = (Normal d, s1)).
Proof.
  intros Hc Hne Hf.
  rewrite (GET_not_fresh w request c s Hc Hne Hf), for_apis_chain.
  destruct (getWeatherFromOpenWeather w c _) as [[d1|e1] s1] eqn:H1.
  - intros H. injection H as <- _. eauto.
  - destruct (getWeatherFromWttrIn w c _) as [[d2|e2] s2] eqn:H2.
    + intros H. injection H as <- _. eauto.
    + discriminate.
Qed.




(** * Further properties of the endpoint *)

Lemma GET_response_cases (w : World) (request : NextRequest) (s : State) :
  exists r s',
    GET w request s = (Normal r, s') /\
    (r = invalid_input \/ r = unavailable \/ exists d, r = found d) /\
    (r = invalid_input <->
       searchParams_get (searchParams request) "city" = None \/
       searchParams_get (searchParams request) "city" = Some "").
Proof.
  destruct (searchParams_get (searchParams request) "city") as [c|] eqn:Hc.
  2: { exists invalid_input, s. rewrite GET_no_city by exact Hc. intuition. }
  destruct (decide (c = "")) as [->|Hne].
  { exists invalid_input, s. rewrite GET_empty_city by exact Hc. intuition. }
  assert (Hno : ~ (Some c = None \/ Some c = Some "")).
  { intros [H|H]; congruence. }
  rewrite (GET_city w request c s Hc Hne).
  assert (Hloop : exists r s',
             for_apis w apis c (cacheKey_of c) s = (Normal r, s') /\
             (r = invalid_input \/ r = unavailable \/ exists d, r = found d) /\
             (r = invalid_input <-> Some c = None \/ Some c = Some "")).
  { destruct (for_apis_chain_effect w c (cacheKey_of c) s)
      as (r & s' & evs & Hrun & _ & Hr & _).
    exists r, s'. split; [exact Hrun|].
    destruct Hr as [[-> _]|(d & -> & _)].
    - split; [auto|]. split; [discriminate|contradiction].
    - split; [eauto|]. split; [discriminate|contradiction]. }
  destruct (cache s !! cacheKey_of c) as [e|]; [|exact Hloop].
  destruct (clock s - timestamp e <? CACHE_DURATION); [|exact Hloop].
  exists (found (data e)), s. split; [reflexivity|].
  split; [eauto|]. split; [discriminate|contradiction].
Qed.

(** X1: the three answers of [GET]: 400 exactly for a missing or empty city,
    otherwise a snapshot with status 200 or the unavailable error with
    status 503.  No request makes it throw or answer anything else. *)
Theorem GET_answers_400_200_or_503 (w : World) (request : NextRequest) (s : State) :
  exists r s',
    GET w request s = (Normal r, s') /\
    (r = invalid_input \/ r = unavailable \/ exists d, r = found d) /\
    (r = invalid_input <->
       searchParams_get (searchParams request) "city" = None \/
       searchParams_get (searchParams request) "city" = Some "").
Proof. exact (GET_response_cases w request s). Qed.

(** X2: a lookup changes no cache entry but the one of its own city: a key that
    is not the key of the requested city reads the same before and after.
    In particular cities that differ in any way, by case or by a space,
    never share or disturb each other's entry. *)
Theorem GET_touches_only_its_city
    (w : World) (request : NextRequest) (s : State) (k : string) :
  (forall c, searchParams_get (searchParams request) "city" = Some c ->
             k <> cacheKey_of c) ->
  cache (GET w request s).2 !! k = cache s !! k.
Proof.
  intros Hk.
  destruct (GET_effect w request s)
    as (r & s' & evs & Hrun & _ & [[_ ->]|(c & Hc & _ & _ & Hcache & _)]);
    rewrite Hrun; simpl; [reflexivity|].
  destruct Hcache as [[_ ->]|(d & _ & ->)]; [reflexivity|].
  apply lookup_insert_ne. intros Heq. exact (Hk c Hc (eq_sym Heq)).
Qed.

Lemma GET_touches_only_its_city_witness :
  cache (GET (answering no_keys (wttr_payload (VStr "55"))) (req "paris")
           (served_once 5000)).2 !! cacheKey_of "Paris"
  = cache (served_once 5000) !! cacheKey_of "Paris".
Proof.
  apply GET_touches_only_its_city.
  intros c Hc. injection Hc as <-. discriminate.
Defined.

(** X3: the cache has no eviction: a lookup never removes an entry, the only
    key it can add is the key of the requested city, so the cache grows by
    at most one entry for each request. *)
Theorem GET_never_evicts (w : World) (request : NextRequest) (s : State) :
  (forall k, is_Some (cache s !! k) -> is_Some (cache (GET w request s).2 !! k)) /\
  (forall k, is_Some (cache (GET w request s).2 !! k) ->
     is_Some (cache s !! k) \/
     exists c, searchParams_get (searchParams request) "city" = Some c /\
               c <> "" /\ k = cacheKey_of c) /\
  (size (cache (GET w request s).2) <= S (size (cache s)))%nat.
Proof.
  destruct (GET_effect w request s)
    as (r & s' & evs & Hrun & _ & [[_ ->]|(c & Hc & Hne & _ & Hcache & _)]);
    rewrite Hrun; simpl.
  { split; [auto|]. split; [auto|lia]. }
  destruct Hcache as [[_ ->]|(d & _ & ->)].
  { split; [auto|]. split; [auto|lia]. }
  split; [|split].
  - intros k Hk. rewrite lookup_insert. case_decide; [eauto|exact Hk].
  - intros k. rewrite lookup_insert. case_decide as Heq; [|auto].
    intros _. right. exists c. auto.
  - rewrite map_size_insert.
    destruct (cache s !! cacheKey_of c); simpl; lia.
Qed.

(** X4: store, then look up: a snapshot that a lookup has just fetched is what
    every later lookup of the same city answers, from the cache and with
    no other effect, as long as less than five minutes have passed since
    the first lookup finished; the entry's timestamp is the time at which
    that lookup finished, after its network calls. *)
Theorem GET_fetched_then_served
    (w1 w2 : World) (request : NextRequest) (c : string)
    (s s1 : State) (d : WeatherData) (now : Z) (tr : list Event) :
  searchParams_get (searchParams request) "city" = Some c ->
  c <> "" ->
  fresh s c = false ->
  GET w1 request s = (Normal (found d), s1) ->
  now - clock s1 < CACHE_DURATION ->
  cache s1 !! cacheKey_of c = Some {| data := d; timestamp := clock s1 |} /\
  GET w2 request {| cache := cache s1; clock := now; trace := tr |}
    = (Normal (found d), {| cache := cache s1; clock := now; trace := tr |}).
Proof.
  intros Hc Hne Hf Hrun Hnow.
  assert (He : cache s1 !! cacheKey_of c
               = Some {| data := d; timestamp := clock s1 |}).
  { rewrite (GET_not_fresh w1 request c s Hc Hne Hf) in Hrun.
    destruct (for_apis_chain_effect w1 c (cacheKey_of c) s)
      as (r & s' & evs & Hrun' & _ & Hr & _).
    rewrite Hrun in Hrun'. injection Hrun' as <- <-.
    destruct Hr as [[Hu _]|(d' & Hd & ->)]; [discriminate|].
    injection Hd as <-. apply lookup_insert_eq. }
  split; [exact He|].
  exact (GET_fresh w2 request c {| cache := cache s1; clock := now; trace := tr |}
           _ Hc Hne He Hnow).
Qed.

Lemma GET_fetched_then_served_witness :
  exists d s1,
    GET (answering no_keys (wttr_payload (VStr "40"))) (req "Paris") st0
      = (Normal (found d), s1) /\
    clock s1 = 1120 /\
    GET (failing no_keys) (req "Paris")
        {| cache := cache s1; clock := 1120 + 299999; trace := [] |}
      = (Normal (found d),
         {| cache := cache s1; clock := 1120 + 299999; trace := [] |}).
Proof.
  eassert (Hrun : GET (answering no_keys (wttr_payload (VStr "40"))) (req "Paris") st0
                  = (Normal (found _), _)) by (vm_compute; reflexivity).
  eexists _, _. split; [exact Hrun|]. split; [reflexivity|].
  refine (proj2 (GET_fetched_then_served _ (failing no_keys) (req "Paris") "Paris"
                   st0 _ _ (1120 + 299999) [] eq_refl _ eq_refl Hrun _)).
  - discriminate.
  - reflexivity.
Defined.

(** X5: sequential fallback without retries: a lookup makes no network call at
    all (invalid input or cache hit), or one call to OpenWeather, or one
    call to wttr.in, or one call to OpenWeather followed by one call to
    wttr.in.  OpenWeather is called only with a configured credential,
    with the 5 s timeout; wttr.in with the 8 s timeout. *)
Theorem GET_network_calls (w : World) (request : NextRequest) (s : State) :
  exists r s' evs,
    GET w request s = (Normal r, s') /\
    trace s' = trace s ++ evs /\
    (fetched evs = [] \/
     exists c, searchParams_get (searchParams request) "city" = Some c /\
       (fetched evs = [WttrIn_call c] \/
        exists key, OPENWEATHER_API_KEY (env w) = Some key /\ key <> "" /\
          (fetched evs = [OpenWeather_call key c] \/
           fetched evs = [OpenWeather_call key c; WttrIn_call c]))) /\
    (forall call, call ∈ fetched evs -> timeout call = 5000 \/ timeout call = 8000).
Proof.
  assert (Hloop : forall c,
            exists r s' evs,
              for_apis w apis c (cacheKey_of c) s = (Normal r, s') /\
              trace s' = trace s ++ evs /\
              (fetched evs = [WttrIn_call c] \/
               exists key, OPENWEATHER_API_KEY (env w) = Some key /\ key <> "" /\
                 (fetched evs = [OpenWeather_call key c] \/
                  fetched evs = [OpenWeather_call key c; WttrIn_call c]))).
  { intros c. rewrite for_apis_chain, getWeatherFromOpenWeather_run.
    destruct (OPENWEATHER_API_KEY (env w)) as [[|a key]|] eqn:Hkey.
    1,3: rewrite getWeatherFromWttrIn_run;
         destruct (answer w (WttrIn_call c) _ _) as [d|e2];
         eexists _, _, _; (split; [reflexivity|]);
         (split; [simpl; rewrite <- ?app_assoc; simpl; reflexivity|]);
         left; reflexivity.
    destruct (answer w (OpenWeather_call _ c) _ _) as [d|e1].
    - eexists _, _, _. split; [reflexivity|].
      split; [simpl; rewrite <- ?app_assoc; simpl; reflexivity|].
      right. exists (String a key). split; [reflexivity|].
      split; [discriminate|]. left. reflexivity.
    - rewrite getWeatherFromWttrIn_run.
      destruct (answer w (WttrIn_call c) _ _) as [d|e2];
        eexists _, _, _; (split; [reflexivity|]);
        (split; [simpl; rewrite <- ?app_assoc; simpl; reflexivity|]);
        right; exists (String a key); (split; [reflexivity|]);
        (split; [discriminate|]); right; reflexivity. }
  assert (Hquiet : forall r : HttpResponse, exists r' s' evs,
            (Normal r, s) = (Normal r', s') /\ trace s' = trace s ++ evs /\
            fetched evs = []).
  { intros r. exists r, s, []. rewrite app_nil_r. auto. }
  assert (Hmain : exists r s' evs,
            GET w request s = (Normal r, s') /\
            trace s' = trace s ++ evs /\
            (fetched evs = [] \/
             exists c, searchParams_get (searchParams request) "city" = Some c /\
               (fetched evs = [WttrIn_call c] \/
                exists key, OPENWEATHER_API_KEY (env w) = Some key /\ key <> "" /\
                  (fetched evs = [OpenWeather_call key c] \/
                   fetched evs = [OpenWeather_call key c; WttrIn_call c])))).
  { destruct (searchParams_get (searchParams request) "city") as [c|] eqn:Hc.
    2: { rewrite GET_no_city by exact Hc.
         destruct (Hquiet invalid_input) as (r & s' & evs & H1 & H2 & H3). eauto 10. }
    destruct (decide (c = "")) as [->|Hne].
    { rewrite GET_empty_city by exact Hc.
      destruct (Hquiet invalid_input) as (r & s' & evs & H1 & H2 & H3). eauto 10. }
    rewrite (GET_city w request c s Hc Hne).
    destruct (Hloop c) as (r & s' & evs & H1 & H2 & H3).
    destruct (cache s !! cacheKey_of c) as [e|]; [|eauto 10].
    destruct (clock s - timestamp e <? CACHE_DURATION); [|eauto 10].
    destruct (Hquiet (found (data e))) as (r0 & s0 & evs0 & H4 & H5 & H6). eauto 10. }
  destruct Hmain as (r & s' & evs & Hrun & Htr & Hf).
  exists r, s', evs. split; [exact Hrun|]. split; [exact Htr|]. split; [exact Hf|].
  intros call Hin.
  destruct Hf as [Hf|(c & _ & [Hf|(key & _ & _ & [Hf|Hf])])];
    rewrite Hf in Hin;
    repeat (apply elem_of_cons in Hin as [->|Hin]; [auto|]);
    apply elem_of_nil in Hin; contradiction.
Qed.

(** * Further properties of the adapters *)

(** The mappings fail, with a TypeError, exactly on the payloads they do not
    accept. *)
Lemma WttrIn_result_by_accepts payload c :
  match WttrIn_result payload c with
  | Normal _ => WttrIn_accepts payload = true
  | Throw e => WttrIn_accepts payload = false /\ e = TypeError
  end.
Proof.
  unfold WttrIn_accepts, WttrIn_parsed, WttrIn_result.
  by_nullish payload; [auto|].
  change (or_ (opt_get0 (prop payload "current_condition")) (VObj []))
    with (current_of payload).
  rewrite !(current_of_not_nullish payload). cbn [bind_c negb andb forallb].
  by_conversion (parseFloat_by_coercible
                   (or_ (prop (current_of payload) "temp_C") (lit 0)));
    [|not_accepted].
  by_conversion (parseFloat_by_coercible
                   (or_ (prop (current_of payload) "FeelsLikeC") (lit 0)));
    [|not_accepted].
  by_conversion (parseFloat_by_coercible
                   (or_ (prop (current_of payload) "humidity") (lit 0)));
    [|not_accepted].
  by_conversion (parseFloat_by_coercible
                   (or_ (or_ (opt_get (opt_get0 (prop payload "weather")) "mintempC")
                             (prop (current_of payload) "temp_C")) (lit 0)));
    [|not_accepted].
  by_conversion (parseFloat_by_coercible
                   (or_ (or_ (opt_get (opt_get0 (prop payload "weather")) "maxtempC")
                             (prop (current_of payload) "temp_C")) (lit 0)));
    [|not_accepted].
  by_conversion (parseFloat_by_coercible
                   (or_ (prop (current_of payload) "windspeedKmph") (lit 0)));
    [|not_accepted].
  reflexivity.
Qed.

Lemma OpenWeather_result_by_accepts payload :
  match OpenWeather_result payload with
  | Normal _ => OpenWeather_accepts payload = true
  | Throw e => OpenWeather_accepts payload = false /\ e = TypeError
  end.
Proof.
  unfold OpenWeather_accepts, OpenWeather_shape, OpenWeather_converted,
    OpenWeather_result, get2, weather0, lit.
  cbn [forallb].
  by_nullish payload; [not_accepted|].
  by_nullish (prop payload "main"); [not_accepted|].
  by_conversion (ToNumber_by_coercible (prop (prop payload "main") "temp"));
    [|not_accepted].
  by_conversion (ToNumber_by_coercible (prop (prop payload "main") "feels_like"));
    [|not_accepted].
  by_conversion (ToNumber_by_coercible (prop (prop payload "main") "temp_min"));
    [|not_accepted].
  by_conversion (ToNumber_by_coercible (prop (prop payload "main") "temp_max"));
    [|not_accepted].
  by_nullish (prop payload "weather"); [not_accepted|].
  by_nullish (prop0 (prop payload "weather")); [not_accepted|].
  by_conversion (ToString_by_coercible (prop (prop0 (prop payload "weather")) "icon"));
    [|not_accepted].
  by_nullish (prop payload "wind"); [not_accepted|].
  by_conversion (js_mul_by_coercible (prop (prop payload "wind") "speed") (of_Z 10));
    [|not_accepted].
  reflexivity.
Qed.

Lemma WeatherAPI_result_by_accepts payload :
  match WeatherAPI_result payload with
  | Normal _ => WeatherAPI_accepts payload = true
  | Throw e => WeatherAPI_accepts payload = false /\ e = TypeError
  end.
Proof.
  unfold WeatherAPI_accepts, WeatherAPI_shape, WeatherAPI_converted,
    WeatherAPI_result, get3, get2, lit, lit_0_27778.
  cbn [forallb].
  by_nullish payload; [not_accepted|].
  by_nullish (prop payload "location"); [not_accepted|].
  by_nullish (prop payload "current"); [not_accepted|].
  pose proof (ToNumber_by_coercible (prop (prop payload "current") "temp_c")) as Ht.
  pose proof (js_sub_by_coercible (prop (prop payload "current") "temp_c") (of_Z 2))
    as Hlo.
  pose proof (js_add_by_coercible (prop (prop payload "current") "temp_c") (of_Z 2))
    as Hhi.
  destruct (ToNumber (prop (prop payload "current") "temp_c")) as [t|e];
    [rewrite Ht|destruct Ht as [Ht ->]; rewrite Ht]; cbn [bind_c];
    [|not_accepted].
  by_conversion (ToNumber_by_coercible (prop (prop payload "current") "feelslike_c"));
    [|not_accepted].
  destruct (js_sub (prop (prop payload "current") "temp_c") (VNum (of_Z 2)))
    as [lo|e]; [|destruct Hlo as [Hlo _]; congruence]; cbn [bind_c].
  destruct (js_add (prop (prop payload "current") "temp_c") (VNum (of_Z 2)))
    as [sum|e]; [|destruct Hhi as [Hhi _]; congruence]; cbn [bind_c].
  destruct Hhi as (_ & hi & ->). cbn [bind_c].
  by_nullish (prop (prop payload "current") "condition"); [not_accepted|].
  by_conversion (ToString_by_coercible
                   (prop (prop (prop payload "current") "condition") "icon"));
    [|not_accepted].
  by_conversion (js_mul_by_coercible (prop (prop payload "current") "wind_kph")
                   num_0_27778);
    [|not_accepted].
  reflexivity.
Qed.

(** X6: the wttr.in adapter's mapping accepts every JSON body other than
    [null] in which the six values it reads as numbers (temperature,
    apparent temperature, humidity, daily minimum and maximum, wind speed,
    or what stands in for them) can be converted to a string: whatever else
    the upstream sends, and whatever it leaves out, a snapshot comes back.
    On [null], and when one of those values is, or holds in an array, an
    object with a [toString] property of its own, the mapping throws a
    TypeError. *)
Theorem WttrIn_result_fails_iff (payload : value) (c : string) :
  (WttrIn_accepts payload = true /\ exists d, WttrIn_result payload c = Normal d) \/
  (WttrIn_accepts payload = false /\ WttrIn_result payload c = Throw TypeError).
Proof.
  pose proof (WttrIn_result_by_accepts payload c) as H.
  destruct (WttrIn_result payload c) as [d|e].
  - left. eauto.
  - right. destruct H as [H ->]. auto.
Qed.

(** X7: the OpenWeather adapter's mapping fails, with a TypeError, exactly on a
    payload in which one of [data], [data.main], [data.weather],
    [data.weather[0]] or [data.wind] is [null] or missing, or in which one
    of the six fields it converts (the four temperatures, the icon, the
    wind speed) is, or holds in an array, an object with a [toString]
    property of its own; every other payload gives a snapshot. *)
Theorem OpenWeather_result_fails_iff (payload : value) :
  (OpenWeather_accepts payload = true /\
     exists d, OpenWeather_result payload = Normal d) \/
  (OpenWeather_accepts payload = false /\
     OpenWeather_result payload = Throw TypeError).
Proof.
  pose proof (OpenWeather_result_by_accepts payload) as H.
  destruct (OpenWeather_result payload) as [d|e].
  - left. eauto.
  - right. destruct H as [H ->]. auto.
Qed.

(** X8: the WeatherAPI adapter's mapping fails, with a TypeError, exactly on a
    payload in which one of [data], [data.location], [data.current] or
    [data.current.condition] is [null] or missing, or in which one of the
    four fields it converts ([temp_c], [feelslike_c], the icon, [wind_kph])
    is, or holds in an array, an object with a [toString] property of its
    own. *)
Theorem WeatherAPI_result_fails_iff (payload : value) :
  (WeatherAPI_accepts payload = true /\
     exists d, WeatherAPI_result payload = Normal d) \/
  (WeatherAPI_accepts payload = false /\
     WeatherAPI_result payload = Throw TypeError).
Proof.
  pose proof (WeatherAPI_result_by_accepts payload) as H.
  destruct (WeatherAPI_result payload) as [d|e].
  - left. eauto.
  - right. destruct H as [H ->]. auto.
Qed.

Lemma Qfloor_shift (q : Q) (n : Z) :
  Qfloor (q + inject_Z n) = (Qfloor q + n)%Z.
Proof.
  pose proof (Qfloor_le q) as H1. pose proof (Qlt_floor q) as H2.
  pose proof (Qfloor_le (q + inject_Z n)) as H3.
  pose proof (Qlt_floor (q + inject_Z n)) as H4.
  rewrite inject_Z_plus in H2, H4.
  change (inject_Z 1) with 1%Q in H2, H4.
  assert (Ha : (Qfloor (q + inject_Z n) < Qfloor q + n + 1)%Z).
  { rewrite Zlt_Qlt, !inject_Z_plus. change (inject_Z 1) with 1%Q. lra. }
  assert (Hb : (Qfloor q + n < Qfloor (q + inject_Z n) + 1)%Z).
  { rewrite Zlt_Qlt, !inject_Z_plus. change (inject_Z 1) with 1%Q. lra. }
  lia.
Qed.

Lemma Qof_align (d : dec) (e : Z) :
  (e <= expo d)%Z ->
  (inject_Z (align d e) * Qpower 10 e == Qof d)%Q.
Proof.
  intros He. unfold align, Qof.
  rewrite inject_Z_mult, Zpower_Qpower by lia.
  change (inject_Z 10) with 10%Q.
  rewrite <- Qmult_assoc, <- Qpower_plus by discriminate.
  replace (expo d - e + e)%Z with (expo d) by lia. reflexivity.
Qed.

Lemma Qof_add a b : (Qof (dec_add a b) == Qof a + Qof b)%Q.
Proof.
  unfold dec_add. set (e := Z.min (expo a) (expo b)).
  unfold Qof at 1. simpl mant. simpl expo.
  rewrite inject_Z_plus, Qmult_plus_distr_l.
  rewrite !Qof_align by (unfold e; lia). reflexivity.
Qed.

(** [Math.round(x - 2)] and [Math.round(x + 2)] are [Math.round(x)] minus and
    plus two. *)
Lemma Math_round_shift (x : dec) (n : Z) :
  Math_round (Fin (dec_add x (Dec n 0)))
  = Fin (Dec (Qfloor (Qof x + (1 # 2)) + n) 0).
Proof.
  unfold Math_round. do 2 f_equal.
  rewrite <- Qfloor_shift. apply Qfloor_comp.
  rewrite Qof_add, Qof_whole. ring.
Qed.

(** X9: the WeatherAPI adapter has no range from upstream and makes one up:
    for a [temp_c] given as a number with at most one decimal digit (as
    WeatherAPI gives it), of at most a hundred million degrees either way,
    the minimum and maximum of the snapshot are the rounded current
    temperature minus two and plus two. *)
Theorem WeatherAPI_min_max_are_temp_minus_plus_two
    (payload : value) (d : WeatherData) (x : dec) (k : Z) :
  WeatherAPI_result payload = Normal d ->
  get2 payload "current" "temp_c" = Normal (VNum (Fin x)) ->
  (Qof x == k # 10)%Q ->
  (Z.abs k <= 1000000000)%Z ->
  exists t : Z,
    temp (main d) = of_Z t /\
    temp_min (main d) = of_Z (t - 2) /\
    temp_max (main d) = of_Z (t + 2).
Proof.
  intros Hres Hx _ _.
  apply WeatherAPI_result_Normal in Hres
    as (v_t & t0 & fl & lo & sum & hi & v_kph & mps & i
        & Ht & Ht0 & Hlo & Hsum & Hhi & _ & _ & _ & -> & _).
  rewrite Hx in Ht. injection Ht as <-.
  injection Ht0 as <-. injection Hlo as <-. injection Hsum as <-.
  injection Hhi as <-.
  exists (Qfloor (Qof x + (1 # 2))). simpl temp. simpl temp_min. simpl temp_max.
  split; [reflexivity|]. split.
  - exact (Math_round_shift x (-2)).
  - exact (Math_round_shift x 2).
Qed.

Lemma WeatherAPI_min_max_are_temp_minus_plus_two_witness :
  exists d,
    WeatherAPI_result (WeatherAPI_payload (lit 36) (lit 50)) = Normal d /\
    temp (main d) = of_Z 13 /\
    temp_min (main d) = of_Z 11 /\
    temp_max (main d) = of_Z 15.
Proof.
  eassert (Hres : WeatherAPI_result (WeatherAPI_payload (lit 36) (lit 50))
                  = Normal _) by (vm_compute; reflexivity).
  eexists. split; [exact Hres|].
  destruct (WeatherAPI_min_max_are_temp_minus_plus_two _ _ (Dec 125 (-1)) 125
              Hres eq_refl ltac:(reflexivity) ltac:(discriminate))
    as (t & H1 & H2 & H3).
  assert (Ht : t = 13) by (injection H1 as H1; symmetry; exact H1).
  subst t. auto.
Defined.

(** X10: [temp_c] given as a string by WeatherAPI: then [temp_c + 2] is a
    concatenation, so the maximum is the rounding
    of the number that the string followed by the digit 2 reads as, while
    the minimum and the current temperature are computed from the number
    the string itself reads as. *)
Theorem WeatherAPI_temp_max_of_string_temp
    (payload : value) (d : WeatherData) (str : string) :
  WeatherAPI_result payload = Normal d ->
  get2 payload "current" "temp_c" = Normal (VStr str) ->
  temp (main d) = Math_round (StringToNumber str) /\
  temp_min (main d) = Math_round (num_sub (StringToNumber str) (of_Z 2)) /\
  temp_max (main d) = Math_round (StringToNumber (str +:+ "2")).
Proof.
  intros Hres Hx.
  apply WeatherAPI_result_Normal in Hres
    as (v_t & t0 & fl & lo & sum & hi & v_kph & mps & i
        & Ht & Ht0 & Hlo & Hsum & Hhi & _ & _ & _ & -> & _).
  rewrite Hx in Ht. injection Ht as <-.
  injection Ht0 as <-. injection Hlo as <-.
  change (js_add (VStr str) (lit 2)) with (Normal (VStr (str +:+ "2"))) in Hsum.
  injection Hsum as <-. injection Hhi as <-. auto.
Qed.

Lemma WeatherAPI_temp_max_of_string_temp_witness :
  exists d,
    WeatherAPI_result WeatherAPI_payload_string_temp = Normal d /\
    temp (main d) = of_Z 20 /\
    temp_min (main d) = of_Z 18 /\
    temp_max (main d) = of_Z 202.
Proof.
  eassert (Hres : WeatherAPI_result WeatherAPI_payload_string_temp = Normal _)
    by (vm_compute; reflexivity).
  eexists. split; [exact Hres|].
  destruct (WeatherAPI_temp_max_of_string_temp _ _ "20" Hres eq_refl)
    as (H1 & H2 & H3).
  rewrite H1, H2, H3. repeat split; vm_compute; reflexivity.
Defined.

(** X11: the wttr.in adapter fills every gap: on a JSON body that has none of
    [current_condition], [nearest_area] and [weather] (the empty object,
    say) it does not fail but returns a snapshot named after the requested
    city with temperatures, humidity and wind all 0 and the description
    "unknown". *)
Theorem WttrIn_result_of_silent_payload (payload : value) (c : string) :
  nullish payload = false ->
  nullish (prop payload "current_condition") = true ->
  nullish (prop payload "nearest_area") = true ->
  nullish (prop payload "weather") = true ->
  WttrIn_result payload c = Normal (WttrIn_default c).
Proof.
  intros Hn Hcc Hna Hw.
  unfold WttrIn_result.
  rewrite !(get_Normal _ _ Hn). cbn [bind_c].
  change (or_ (opt_get0 (prop payload "current_condition")) (VObj []))
    with (current_of payload).
  rewrite !(get_Normal _ _ (current_of_not_nullish payload)). cbn [bind_c].
  assert (Hcur : current_of payload = VObj []).
  { unfold current_of, opt_get0. rewrite Hcc. reflexivity. }
  assert (P0 : parseFloat (lit 0) = Normal (of_Z 0)) by (vm_compute; reflexivity).
  assert (R0 : Math_round (of_Z 0) = of_Z 0) by (vm_compute; reflexivity).
  assert (W0 : num_div10 (Math_round (num_mul (num_mul (of_Z 0) num_0_27778)
                 (of_Z 10))) = Fin (Dec 0 (-1)))
    by (vm_compute; reflexivity).
  rewrite Hcur. unfold opt_get0. rewrite Hna, Hw.
  cbn [prop lookup_field opt_get nullish or_ truthy].
  rewrite !P0. cbn [bind_c]. rewrite !R0, W0. reflexivity.
Qed.

Lemma WttrIn_result_of_silent_payload_witness :
  WttrIn_result (VObj []) "Paris" = Normal (WttrIn_default "Paris") /\
  exists d s',
    GET (answering no_keys (VObj [])) (req "Paris") st0 = (Normal (found d), s') /\
    d = WttrIn_default "Paris".
Proof.
  split.
  - apply WttrIn_result_of_silent_payload; reflexivity.
  - eexists _, _. split; vm_compute; reflexivity.
Defined.

(** X12: fallbacks of the wttr.in adapter: without an area name the snapshot is
    named after the requested city, and without a daily minimum or maximum
    the snapshot's minimum or maximum is its current temperature. *)
Theorem WttrIn_fallbacks (payload : value) (c : string) (d : WeatherData) :
  WttrIn_result payload c = Normal d ->
  (truthy (opt_get (opt_get0 (opt_get (opt_get0
             (prop payload "nearest_area")) "areaName")) "value") = false ->
     name d = VStr c) /\
  (truthy (opt_get (opt_get0 (prop payload "weather")) "mintempC") = false ->
     temp_min (main d) = temp (main d)) /\
  (truthy (opt_get (opt_get0 (prop payload "weather")) "maxtempC") = false ->
     temp_max (main d) = temp (main d)).
Proof.
  intros Hres.
  destruct (WttrIn_result_Normal payload c d Hres)
    as (_ & t & fl & h & lo & hi & kmph & Ht & _ & _ & Hlo & Hhi & _ & ->).
  simpl name. simpl temp. simpl temp_min. simpl temp_max.
  repeat split; intros H.
  - unfold or_ at 1. rewrite H. reflexivity.
  - unfold or_ at 2 in Hlo. rewrite H in Hlo. rewrite Ht in Hlo.
    injection Hlo as <-. reflexivity.
  - unfold or_ at 2 in Hhi. rewrite H in Hhi. rewrite Ht in Hhi.
    injection Hhi as <-. reflexivity.
Qed.

Lemma WttrIn_fallbacks_witness :
  exists d,
    WttrIn_result
      (VObj [("current_condition", VArr [VObj [("temp_C", VStr "15")]])]) "Lyon"
      = Normal d /\
    name d = VStr "Lyon" /\
    temp (main d) = of_Z 15 /\
    temp_min (main d) = temp (main d) /\
    temp_max (main d) = temp (main d).
Proof.
  eassert (Hres : WttrIn_result
                    (VObj [("current_condition", VArr [VObj [("temp_C", VStr "15")]])])
                    "Lyon" = Normal _) by (vm_compute; reflexivity).
  eexists. split; [exact Hres|].
  destruct (WttrIn_fallbacks _ _ _ Hres) as (H1 & H2 & H3).
  split; [apply H1; reflexivity|]. split; [reflexivity|].
  split; [apply H2; reflexivity|apply H3; reflexivity].
Defined.

Lemma OpenWeather_answer_by_usable w c key :
  OPENWEATHER_API_KEY (env w) = Some key -> key <> "" ->
  match answer w (OpenWeather_call key c) "OpenWeather API错误: " OpenWeather_result with
  | Normal _ => OpenWeather_usable w c = true
  | Throw _ => OpenWeather_usable w c = false
  end.
Proof.
  intros Hkey Hne. unfold OpenWeather_usable, answer. rewrite Hkey.
  destruct key as [|a key]; [congruence|].
  destruct ((fetch w _).2) as [|st [payload|]]; try reflexivity.
  - destruct (ok _); [|reflexivity]. simpl.
    pose proof (OpenWeather_result_by_accepts payload) as H.
    destruct (OpenWeather_result payload); [exact H|apply H].
  - destruct (ok _); reflexivity.
Qed.

Lemma WttrIn_answer_by_usable w c :
  match answer w (WttrIn_call c) "wttr.in API错误: " (fun d => WttrIn_result d c) with
  | Normal _ => WttrIn_usable w c = true
  | Throw _ => WttrIn_usable w c = false
  end.
Proof.
  unfold WttrIn_usable, answer.
  destruct ((fetch w _).2) as [|st [payload|]]; try reflexivity.
  - destruct (ok _); [|reflexivity]. simpl.
    pose proof (WttrIn_result_by_accepts payload c) as H.
    destruct (WttrIn_result payload c); [exact H|apply H].
  - destruct (ok _); reflexivity.
Qed.

(** X13: when a lookup is not answered from the cache, the network decides
    between 200 and 503: the answer is the unavailable error exactly when
    neither OpenWeather (credential configured, 2xx status, JSON body the
    mapping accepts: [main], [weather[0]] and [wind] present, the fields it
    converts convertible) nor wttr.in (2xx status, JSON body the mapping
    accepts: not [null], the values it reads as numbers convertible) can
    be used. *)
Theorem GET_unavailable_iff_no_usable_provider
    (w : World) (request : NextRequest) (c : string) (s : State) :
  searchParams_get (searchParams request) "city" = Some c ->
  c <> "" ->
  fresh s c = false ->
  exists r s',
    GET w request s = (Normal r, s') /\
    (r = unavailable <-> OpenWeather_usable w c || WttrIn_usable w c = false) /\
    ((exists d, r = found d) <-> OpenWeather_usable w c || WttrIn_usable w c = true).
Proof.
  intros Hc Hne Hf.
  rewrite (GET_not_fresh w request c s Hc Hne Hf), for_apis_chain.
  rewrite getWeatherFromOpenWeather_run.
  pose proof (WttrIn_answer_by_usable w c) as Hw.
  assert (Hfound : forall d, found d <> unavailable) by (intros d; discriminate).
  assert (Hunav : ~ exists d, unavailable = found d)
    by (intros [d Hd]; discriminate).
  destruct (OPENWEATHER_API_KEY (env w)) as [[|a key]|] eqn:Hkey.
  1,3: assert (Ho : OpenWeather_usable w c = false)
         by (unfold OpenWeather_usable; rewrite Hkey; reflexivity);
       rewrite Ho; rewrite getWeatherFromWttrIn_run;
       destruct (answer w (WttrIn_call c) _ _) as [d|e2];
       rewrite Hw; eexists _, _; (split; [reflexivity|]); simpl;
       split; split; intros H; try reflexivity; try discriminate;
       try (exfalso; eapply Hfound; eassumption);
       try (exfalso; exact (Hunav H)); eauto.
  pose proof (OpenWeather_answer_by_usable w c (String a key) Hkey
                ltac:(discriminate)) as Ho.
  destruct (answer w (OpenWeather_call _ c) _ _) as [d|e1]; rewrite Ho.
  - eexists _, _. split; [reflexivity|]. simpl.
    split; split; intros H; try reflexivity; try discriminate;
      try (exfalso; eapply Hfound; eassumption); eauto.
  - rewrite getWeatherFromWttrIn_run.
    destruct (answer w (WttrIn_call c) _ _) as [d|e2];
      rewrite Hw; eexists _, _; (split; [reflexivity|]); simpl;
      split; split; intros H; try reflexivity; try discriminate;
      try (exfalso; eapply Hfound; eassumption);
      try (exfalso; exact (Hunav H)); eauto.
Qed.

Lemma GET_unavailable_iff_no_usable_provider_witness :
  GET (answering both_keys (wttr_payload (VObj [("toString", lit 1)]))) (req "Paris") st0
    = (Normal unavailable,
       (GET (answering both_keys (wttr_payload (VObj [("toString", lit 1)])))
            (req "Paris") st0).2) /\
  OpenWeather_usable (answering both_keys (wttr_payload (VObj [("toString", lit 1)])))
                     "Paris"
    || WttrIn_usable (answering both_keys (wttr_payload (VObj [("toString", lit 1)])))
                     "Paris" = false.
Proof.
  destruct (GET_unavailable_iff_no_usable_provider
              (answering both_keys (wttr_payload (VObj [("toString", lit 1)])))
              (req "Paris") "Paris" st0
              eq_refl ltac:(discriminate) eq_refl)
    as (r & s' & Hrun & Hu & _).
  assert (Hno : OpenWeather_usable
                  (answering both_keys (wttr_payload (VObj [("toString", lit 1)])))
                  "Paris"
                || WttrIn_usable
                     (answering both_keys (wttr_payload (VObj [("toString", lit 1)])))
                     "Paris" = false)
    by (vm_compute; reflexivity).
  split; [|exact Hno].
  rewrite Hrun. simpl. rewrite (proj2 Hu Hno). reflexivity.
Defined.



(** * The page and the endpoint together *)

Lemma to_JSON_num x : to_JSON (VNum x) = Some (num_json x).
Proof. destruct x as [d| | |]; reflexivity. Qed.

Lemma Qfloor_whole_half (z : Z) : Qfloor (inject_Z z + (1 # 2)) = z.
Proof.
  rewrite Qplus_comm, Qfloor_shift. reflexivity.
Qed.

(** Rounding a rounded number again changes nothing. *)
Lemma Math_round_idempotent y : Math_round (Math_round y) = Math_round y.
Proof.
  destruct y as [d| | |]; try reflexivity.
  unfold Math_round. do 2 f_equal.
  rewrite <- (Qfloor_whole_half (Qfloor (Qof d + (1 # 2)))) at 2.
  apply Qfloor_comp. rewrite Qof_whole. reflexivity.
Qed.

(** The numbers of a snapshot, arrived in the page, convert without an
    exception. *)
Lemma ToNumber_num_json x : ToNumber (num_json x) = Normal (through_JSON x).
Proof. destruct x as [d| | |]; reflexivity. Qed.

Lemma js_mul_num_json x n :
  js_mul (num_json x) (VNum n) = Normal (num_mul (through_JSON x) n).
Proof. destruct x as [d| | |]; reflexivity. Qed.

Lemma card_number y :
  Math_round (through_JSON (Math_round y)) = through_JSON (Math_round y).
Proof.
  destruct y as [d| | |]; try reflexivity.
  exact (Math_round_idempotent (Fin d)).
Qed.

Lemma card_wind_number y :
  num_div10 (Math_round (num_mul (through_JSON (num_div10 (Math_round y))) (of_Z 10)))
  = wind_through_JSON (num_div10 (Math_round y)).
Proof.
  destruct y as [d| | |]; try reflexivity.
  unfold Math_round at 2. unfold num_div10 at 2. unfold through_JSON.
  unfold of_Z, num_mul, wind_through_JSON, Math_round, num_div10.
  do 2 f_equal. simpl expo.
  set (t := Qfloor (Qof d + (1 # 2))).
  rewrite <- (Qfloor_whole_half t) at 2.
  apply Qfloor_comp. rewrite Qof_mul, Qof_tenths.
  assert (H10 : Qof (Dec 10 0) == 10) by reflexivity.
  rewrite H10, (Qmake_Qdiv t 10). field.
Qed.

Lemma to_JSON_VObj fs : to_JSON (VObj fs) = Some (VObj (fields_JSON fs)).
Proof. reflexivity. Qed.

Lemma to_JSON_VArr l : to_JSON (VArr l) = Some (VArr (items_JSON l)).
Proof. reflexivity. Qed.

Lemma fields_JSON_cons k x r :
  fields_JSON ((k, x) :: r) =
    match to_JSON x with
    | Some j => (k, j) :: fields_JSON r
    | None => fields_JSON r
    end.
Proof. reflexivity. Qed.

Lemma items_JSON_cons x r :
  items_JSON (x :: r) =
    match to_JSON x with Some j => j | None => VNull end :: items_JSON r.
Proof. reflexivity. Qed.

(** X15: what the adapters return is what the page shows: the weather card
    renders without an exception, and the numbers it shows after rounding
    them again are the snapshot's own numbers; a temperature that is NaN
    (or infinite) arrives as [null] and is shown as 0. *)
Theorem card_shows_snapshot_numbers
    (w : World) (c : string) (s s' : State) (d : WeatherData) :
  getWeatherFromOpenWeather w c s = (Normal d, s') \/
  getWeatherFromWeatherAPI w c s = (Normal d, s') \/
  getWeatherFromWttrIn w c s = (Normal d, s') ->
  exists weatherData card,
    to_JSON (value_of_WeatherData d) = Some weatherData /\
    render_card weatherData = Normal card /\
    card_current card = through_JSON (temp (main d)) /\
    card_feels_like card = through_JSON (feels_like (main d)) /\
    card_min card = through_JSON (temp_min (main d)) /\
    card_max card = through_JSON (temp_max (main d)) /\
    card_wind card = wind_through_JSON (speed (wind d)).
Proof.
  intros H. apply adapters_shaped in H.
  destruct d as [nm [t fl h lo hi] ws [sp]].
  destruct H as ((y1 & H1) & (y2 & H2) & (y3 & H3) & (y4 & H4) & (y5 & H5) & (i & Hi)).
  simpl in H1, H2, H3, H4, H5, Hi. subst t fl lo hi sp ws.
  destruct i as [wm wd wi].
  unfold value_of_WeatherData. cbn [name main weather wind temp feels_like humidity
    temp_min temp_max speed weather_main description icon map].
  rewrite to_JSON_VObj, !fields_JSON_cons, !to_JSON_VObj, !fields_JSON_cons,
    !to_JSON_num, to_JSON_VArr, items_JSON_cons, to_JSON_VObj, !fields_JSON_cons.
  cbn [fields_JSON items_JSON].
  destruct (to_JSON nm), (to_JSON h), (to_JSON wm), (to_JSON wd), (to_JSON wi);
    eexists _, _; (split; [reflexivity|]);
    (split;
       [cbv -[num_json Math_round ToNumber js_mul num_div10 lit num_mul through_JSON];
        rewrite !ToNumber_num_json; unfold lit; rewrite js_mul_num_json;
        reflexivity|]);
    cbn [card_current card_feels_like card_min card_max card_wind];
    auto using card_number, card_wind_number.
Qed.

Lemma card_shows_snapshot_numbers_witness :
  exists d s' weatherData card,
    getWeatherFromOpenWeather
      (answering both_keys OpenWeather_payload_without_temp) "Paris" st0
      = (Normal d, s') /\
    temp (main d) = NaN /\
    feels_like (main d) = of_Z 12 /\
    to_JSON (value_of_WeatherData d) = Some weatherData /\
    render_card weatherData = Normal card /\
    card_current card = of_Z 0 /\
    card_feels_like card = of_Z 12.
Proof.
  eassert (Hrun : getWeatherFromOpenWeather
                    (answering both_keys OpenWeather_payload_without_temp)
                    "Paris" st0 = (Normal _, _)) by (vm_compute; reflexivity).
  destruct (card_shows_snapshot_numbers _ _ _ _ _ (or_introl Hrun))
    as (weatherData & card & H1 & H2 & H3 & H4 & _).
  eexists _, _, weatherData, card.
  split; [exact Hrun|]. split; [reflexivity|]. split; [reflexivity|].
  split; [exact H1|]. split; [exact H2|]. split; [exact H3|exact H4].
Defined.

Lemma trim_nonempty c : trim c <> "" -> c <> "".
Proof. intros H ->. apply H. reflexivity. Qed.

(** X16: the page after a lookup that the endpoint has answered: one request has
    been sent, [loading] is off again, and either the snapshot of a 200
    answer is stored (as JSON) with the error cleared, or the error text of
    the endpoint's answer is shown while the snapshot shown before stays. *)
Theorem page_after_lookup
    (w : World) (s s' : State) (b : Browser) (st : ClientState) (r : HttpResponse) :
  trim (city st) <> "" ->
  GET w (req (city st)) s = (Normal r, s') ->
  api_fetch b (request_url (city st)) = wire r ->
  handleSubmit b st =
    (match http_body r with
     | JsonData d =>
         {| city := city st; weatherData := to_JSON (value_of_WeatherData d);
            loading := false; error := "" |}
     | JsonError e =>
         {| city := city st; weatherData := weatherData st;
            loading := false; error := e |}
     end,
     [request_url (city st)]).
Proof.
  intros Htrim Hrun Hfetch.
  pose proof (trim_nonempty _ Htrim) as Hne.
  destruct (GET_response_cases w (req (city st)) s) as (r0 & s0 & Hrun0 & Hr & Hiff).
  rewrite Hrun in Hrun0. injection Hrun0 as <- <-.
  unfold handleSubmit.
  destruct (String.eqb_spec (trim (city st)) "") as [Heq|_]; [contradiction|].
  fold (request_url (city st)). unfold handleSubmit_try. rewrite Hfetch.
  destruct Hr as [->|[->|[d ->]]].
  - exfalso. destruct (proj1 Hiff eq_refl) as [H|H]; simpl in H; congruence.
  - reflexivity.
  - unfold wire. cbn [http_status http_body found NextResponse_json value_of_body].
    unfold value_of_WeatherData. rewrite to_JSON_VObj. reflexivity.
Qed.

Lemma page_after_lookup_witness :
  handleSubmit
    {| api_fetch := fun _ => wire unavailable; engine_message := fun _ => "" |}
    {| city := "Paris"; weatherData := Some VNull; loading := false; error := "" |}
  = ({| city := "Paris"; weatherData := Some VNull; loading := false;
        error := "所有天气服务暂时不可用，请稍后重试" |},
     ["/api/weather?city=Paris"]).
Proof.
  eassert (Hrun : GET (failing no_keys) (req "Paris") st0 = (Normal unavailable, _))
    by (vm_compute; reflexivity).
  exact (page_after_lookup (failing no_keys) st0 _
           {| api_fetch := fun _ => wire unavailable; engine_message := fun _ => "" |}
           {| city := "Paris"; weatherData := Some VNull; loading := false; error := "" |}
           unavailable ltac:(discriminate) Hrun eq_refl).
Defined.

(** * The earlier routes *)

(** X17: the wttr.in adapter of the current route is the earlier route's mapping
    followed by rounding: on every payload the two fail alike, and where
    the earlier one returns a snapshot the adapter returns the same
    snapshot with the temperatures rounded to whole degrees and the wind
    speed to one decimal place; name, humidity and description are the
    same. *)
Theorem WttrIn_result_rounds_earlier_route (payload : value) (c : string) :
  match RangeRoute.weatherData payload c with
  | Normal o => WttrIn_result payload c = Normal (round_snapshot o)
  | Throw e => WttrIn_result payload c = Throw e
  end.
Proof.
  unfold RangeRoute.weatherData, WttrIn_result.
  by_nullish payload; [reflexivity|].
  change (or_ (opt_get0 (prop payload "current_condition")) (VObj []))
    with (current_of payload).
  rewrite !(current_of_not_nullish payload). cbn [bind_c].
  repeat match goal with
         | |- context [bind_c (parseFloat ?v) _] =>
             destruct (parseFloat v) as [?|?]; cbn [bind_c]; [|reflexivity]
         end.
  reflexivity.
Qed.

(** The mapping of the earlier route with a range fails, with a TypeError,
    exactly on the payloads the wttr.in mapping does not accept. *)
Lemma RangeRoute_weatherData_by_accepts payload c :
  match RangeRoute.weatherData payload c with
  | Normal _ => WttrIn_accepts payload = true
  | Throw e => WttrIn_accepts payload = false /\ e = TypeError
  end.
Proof.
  unfold WttrIn_accepts, WttrIn_parsed, RangeRoute.weatherData.
  by_nullish payload; [auto|].
  change (or_ (opt_get0 (prop payload "current_condition")) (VObj []))
    with (current_of payload).
  rewrite !(current_of_not_nullish payload). cbn [bind_c negb andb forallb].
  by_conversion (parseFloat_by_coercible
                   (or_ (prop (current_of payload) "temp_C") (lit 0)));
    [|not_accepted].
  by_conversion (parseFloat_by_coercible
                   (or_ (prop (current_of payload) "FeelsLikeC") (lit 0)));
    [|not_accepted].
  by_conversion (parseFloat_by_coercible
                   (or_ (prop (current_of payload) "humidity") (lit 0)));
    [|not_accepted].
  by_conversion (parseFloat_by_coercible
                   (or_ (or_ (opt_get (opt_get0 (prop payload "weather")) "mintempC")
                             (prop (current_of payload) "temp_C")) (lit 0)));
    [|not_accepted].
  by_conversion (parseFloat_by_coercible
                   (or_ (or_ (opt_get (opt_get0 (prop payload "weather")) "maxtempC")
                             (prop (current_of payload) "temp_C")) (lit 0)));
    [|not_accepted].
  by_conversion (parseFloat_by_coercible
                   (or_ (prop (current_of payload) "windspeedKmph") (lit 0)));
    [|not_accepted].
  reflexivity.
Qed.

Lemma fetch_payload_by_Net_payload net c :
  match fetch_payload net c with
  | Normal payload => Net_payload net c = Some payload
  | Throw _ => Net_payload net c = None
  end.
Proof.
  unfold fetch_payload, Net_payload.
  destruct (net (wttr_url c) wttr_options) as [|st [payload|]]; try reflexivity.
  - destruct (ok _); reflexivity.
  - destruct (ok _); reflexivity.
Qed.

(** X18: the earlier route with a range answers 400 for a missing or empty
    city; otherwise 200 with a snapshot exactly when wttr.in answered with
    a 2xx status and a JSON body the mapping accepts (not [null], and the
    values it reads as numbers convertible), and in every other case
    (rejected call, other status, body that is not JSON or not accepted)
    the one error with status 500, the cause going to [console.error]
    only. *)
Theorem RangeRoute_GET_answers (net : Net) (request : NextRequest) :
  (searchParams_get (searchParams request) "city" = None \/
   searchParams_get (searchParams request) "city" = Some "" ->
   RangeRoute.GET net request = (invalid_input, [])) /\
  (forall c,
     searchParams_get (searchParams request) "city" = Some c -> c <> "" ->
     match Net_payload net c with
     | Some payload =>
         if WttrIn_accepts payload
         then exists d, RangeRoute.GET net request = (found d, [])
         else RangeRoute.GET net request = (failed_500, [TypeError])
     | None => exists e, RangeRoute.GET net request = (failed_500, [e])
     end).
Proof.
  split.
  - intros [H|H]; unfold RangeRoute.GET; rewrite H; reflexivity.
  - intros c Hc Hne. unfold RangeRoute.GET. rewrite Hc.
    destruct c as [|a c']; [congruence|].
    pose proof (fetch_payload_by_Net_payload net (String a c')) as Hu.
    destruct (fetch_payload net (String a c')) as [payload|e]; cbn [bind_c];
      rewrite Hu; [|eauto].
    pose proof (RangeRoute_weatherData_by_accepts payload (String a c')) as Ha.
    destruct (RangeRoute.weatherData payload (String a c')) as [o|e].
    + rewrite Ha. eauto.
    + destruct Ha as [-> ->]. reflexivity.
Qed.

Lemma RangeRoute_GET_answers_witness :
  RangeRoute.GET (fun _ _ => Responded 200 (Some (VObj []))) (req "")
    = (invalid_input, []) /\
  (exists d, RangeRoute.GET (fun _ _ => Responded 200 (Some (VObj []))) (req "Paris")
             = (found d, [])) /\
  (exists e, RangeRoute.GET (fun _ _ => Responded 404 (Some (VObj []))) (req "Paris")
             = (failed_500, [e])) /\
  RangeRoute.GET
    (fun _ _ => Responded 200 (Some (wttr_payload (VObj [("toString", lit 1)]))))
    (req "Paris")
    = (failed_500, [TypeError]).
Proof.
  split; [|split; [|split]].
  - apply (proj1 (RangeRoute_GET_answers _ (req ""))). right. reflexivity.
  - exact (proj2 (RangeRoute_GET_answers (fun _ _ => Responded 200 (Some (VObj [])))
                    (req "Paris")) "Paris" eq_refl ltac:(discriminate)).
  - exact (proj2 (RangeRoute_GET_answers (fun _ _ => Responded 404 (Some (VObj [])))
                    (req "Paris")) "Paris" eq_refl ltac:(discriminate)).
  - exact (proj2 (RangeRoute_GET_answers
                    (fun _ _ => Responded 200
                                  (Some (wttr_payload (VObj [("toString", lit 1)]))))
                    (req "Paris")) "Paris" eq_refl ltac:(discriminate)).
Defined.

(** What the first version reads of the current condition is what the
    version with a range reads of [current]. *)
Lemma condition_current_of payload k :
  opt_get (opt_get0 (prop payload "current_condition")) k
  = prop (current_of payload) k.
Proof.
  unfold current_of, or_.
  destruct (truthy (opt_get0 (prop payload "current_condition"))) eqn:Ht.
  - unfold opt_get.
    destruct (opt_get0 (prop payload "current_condition")); try discriminate;
      reflexivity.
  - unfold opt_get.
    destruct (opt_get0 (prop payload "current_condition")) as [| |[|]|n|str|l|fs];
      try discriminate; reflexivity.
Qed.

(** Where the version with a range returns a snapshot, the first version
    returns it with the range left out. *)
Lemma BasicRoute_weatherData_of_RangeRoute payload c o :
  RangeRoute.weatherData payload c = Normal o ->
  BasicRoute.weatherData payload c = Normal (without_range o).
Proof.
  unfold RangeRoute.weatherData, BasicRoute.weatherData, BasicRoute.condition.
  by_nullish payload; [discriminate|].
  change (or_ (opt_get0 (prop payload "current_condition")) (VObj []))
    with (current_of payload).
  rewrite !(current_of_not_nullish payload), !condition_current_of. cbn [bind_c].
  repeat match goal with
         | |- context [bind_c (parseFloat ?v) _] =>
             destruct (parseFloat v) as [?|?]; cbn [bind_c]; [|discriminate]
         end.
  intros H. injection H as <-. reflexivity.
Qed.

(** X19: the two earlier versions side by side: both answer 400 for a
    missing or empty city; where the version with a range answers with a
    snapshot, the first version answers with the same snapshot, the range
    left out; and where the first version answers with the error of
    status 500, so does the version with a range.  (The version with a
    range also fails when only the daily minimum or maximum cannot be
    converted, which the first version does not read.) *)
Theorem BasicRoute_GET_agrees_with_RangeRoute (net : Net) (request : NextRequest) :
  (searchParams_get (searchParams request) "city" = None \/
   searchParams_get (searchParams request) "city" = Some "" ->
   http_status (RangeRoute.GET net request).1 = 400 /\
   BasicRoute.http_status (BasicRoute.GET net request).1 = 400) /\
  (forall d,
     RangeRoute.GET net request = (found d, []) ->
     BasicRoute.GET net request
       = ({| BasicRoute.http_body := BasicRoute.JsonData (without_range d);
             BasicRoute.http_status := 200 |}, [])) /\
  (forall e,
     BasicRoute.GET net request = (BasicRoute_failed_500, [e]) ->
     exists e', RangeRoute.GET net request = (failed_500, [e'])).
Proof.
  unfold RangeRoute.GET, BasicRoute.GET.
  destruct (searchParams_get (searchParams request) "city") as [[|a c]|].
  1,3: split; [auto|split; [intros d H; discriminate H|intros e H; discriminate H]].
  split; [intros [H|H]; discriminate H|].
  destruct (fetch_payload net (String a c)) as [payload|e0]; cbn [bind_c].
  - pose proof (BasicRoute_weatherData_of_RangeRoute payload (String a c)) as Ho.
    destruct (RangeRoute.weatherData payload (String a c)) as [o|e1].
    + rewrite (Ho o eq_refl). split.
      * intros d H. injection H as <-. reflexivity.
      * intros e H. discriminate H.
    + split; [intros d H; discriminate H|eauto].
  - split; [intros d H; discriminate H|eauto].
Qed.

Lemma BasicRoute_GET_agrees_with_RangeRoute_witness :
  exists d,
    RangeRoute.GET (fun _ _ => Responded 200 (Some (wttr_payload (VStr "40"))))
                   (req "Paris") = (found d, []) /\
    BasicRoute.GET (fun _ _ => Responded 200 (Some (wttr_payload (VStr "40"))))
                   (req "Paris")
      = ({| BasicRoute.http_body := BasicRoute.JsonData (without_range d);
            BasicRoute.http_status := 200 |}, []) /\
    BasicRoute.humidity (BasicRoute.main (without_range d)) = of_Z 40.
Proof.
  eassert (Hrun : RangeRoute.GET
                    (fun _ _ => Responded 200 (Some (wttr_payload (VStr "40"))))
                    (req "Paris") = (found _, [])) by (vm_compute; reflexivity).
  eexists. split; [exact Hrun|]. split.
  - exact (proj1 (proj2 (BasicRoute_GET_agrees_with_RangeRoute _ _)) _ Hrun).
  - reflexivity.
Defined.

(** * Invariants of the cache *)

Lemma GET_stores_shaped w request s :
  (forall k e, cache s !! k = Some e -> adapter_shaped (data e)) ->
  forall k e, cache (GET w request s).2 !! k = Some e -> adapter_shaped (data e).
Proof.
  intros Hk.
  destruct (GET_effect w request s)
    as (r & s' & evs & Hrun & _ & [[_ ->]|(c & Hc & Hne & Hf & Hcache & _)]);
    rewrite Hrun; simpl; [exact Hk|].
  destruct Hcache as [[_ ->]|(d & -> & ->)]; [exact Hk|].
  intros k e. rewrite lookup_insert. case_decide as Heq; [|apply Hk].
  intros He. injection He as <-. simpl.
  destruct (GET_snapshot_origin w request c s d s' Hc Hne Hf Hrun)
    as [(s0 & s1 & H)|(s0 & s1 & H)];
    apply (adapters_shaped w c s0 s1 d); auto.
Qed.

Lemma reachable_shaped m :
  reachable m -> forall k e, m !! k = Some e -> adapter_shaped (data e).
Proof.
  induction 1 as [|w request s _ IH].
  - intros k e. rewrite lookup_empty. discriminate.
  - apply GET_stores_shaped. exact IH.
Qed.

(** X20: invariant of the cache.  Whatever requests a server has answered since
    it started, every entry of its cache sits under the key ["weather_"]
    followed by a city that is not empty, and holds a snapshot as the
    adapters build them: temperatures whole and wind a whole number of
    tenths wherever they are finite, and exactly one weather item. *)
Theorem cache_invariant (m : gmap string CacheData) (k : string) (e : CacheData) :
  reachable m ->
  m !! k = Some e ->
  (exists c, c <> "" /\ k = "weather_" +:+ c) /\
  rounded_where_finite (data e) /\
  (exists i, weather (data e) = [i]).
Proof.
  intros Hr He. split; [|split].
  - exact (reachable_keys_of_cities m Hr k e He).
  - apply shaped_rounded. exact (reachable_shaped m Hr k e He).
  - apply (reachable_shaped m Hr k e He).
Qed.

Lemma cache_invariant_witness :
  exists e,
    cache (served_once 0) !! "weather_Paris" = Some e /\
    rounded_where_finite (data e) /\
    (exists i, weather (data e) = [i]).
Proof.
  eassert (He : cache (served_once 0) !! "weather_Paris" = Some _)
    by (vm_compute; reflexivity).
  eexists. split; [exact He|].
  exact (proj2 (cache_invariant _ _ _ (reachable_GET _ _ st0 reachable_start) He)).
Defined.

(** X21: every snapshot the endpoint answers with, fetched just now or served
    from the cache, has the adapters' rounding: temperatures whole and
    wind a whole number of tenths wherever they are finite. *)
Theorem GET_answers_rounded_snapshots
    (w : World) (request : NextRequest) (s s' : State) (d : WeatherData) :
  reachable (cache s) ->
  GET w request s = (Normal (found d), s') ->
  rounded_where_finite d.
Proof.
  intros Hr Hrun. apply shaped_rounded.
  destruct (GET_found_cached w request s d s' Hrun) as (c & e & _ & _ & He & <-).
  refine (reachable_shaped _ _ _ e He).
  replace (cache s') with (cache (GET w request s).2) by (rewrite Hrun; reflexivity).
  constructor. exact Hr.
Qed.

Lemma GET_answers_rounded_snapshots_witness :
  exists d s',
    GET (failing no_keys) (req "Paris") (served_once 5000) = (Normal (found d), s') /\
    rounded_where_finite d.
Proof.
  eassert (Hrun : GET (failing no_keys) (req "Paris") (served_once 5000)
                  = (Normal (found _), _)) by (vm_compute; reflexivity).
  eexists _, _. split; [exact Hrun|].
  exact (GET_answers_rounded_snapshots _ _ (served_once 5000) _ _
           (reachable_GET _ _ st0 reachable_start) Hrun).
Defined.

(** X22: idempotence as the page sees it: of two lookups of a city in a row, the
    second, when it calls no adapter, answers with the very snapshot the
    first one answered with and leaves the cache as it is. *)
Theorem GET_again_same_snapshot
    (w1 w2 : World) (request : NextRequest) (s s1 s2 : State)
    (d : WeatherData) (now : Z) (r2 : HttpResponse) :
  GET w1 request s = (Normal (found d), s1) ->
  GET w2 request {| cache := cache s1; clock := now; trace := [] |} = (Normal r2, s2) ->
  invoked (trace s2) = [] ->
  r2 = found d /\ cache s2 = cache s1.
Proof. apply GET_twice_same_snapshot. Qed.

Lemma GET_again_same_snapshot_witness :
  exists d r2 s2,
    GET (answering no_keys (wttr_payload (VStr "40"))) (req "Paris") st0
      = (Normal (found d), first_lookup.2) /\
    GET (answering no_keys (wttr_payload (VStr "55"))) (req "Paris")
        {| cache := cache first_lookup.2; clock := 200000; trace := [] |}
      = (Normal r2, s2) /\
    r2 = found d /\ cache s2 = cache first_lookup.2.
Proof.
  eassert (H1 : GET (answering no_keys (wttr_payload (VStr "40"))) (req "Paris") st0
                = (Normal (found _), first_lookup.2)) by (vm_compute; reflexivity).
  eassert (H2 : GET (answering no_keys (wttr_payload (VStr "55"))) (req "Paris")
                    {| cache := cache first_lookup.2; clock := 200000; trace := [] |}
                = (Normal _, _)) by (vm_compute; reflexivity).
  eexists _, _, _. split; [exact H1|]. split; [exact H2|].
  exact (GET_again_same_snapshot _ _ _ _ _ _ _ _ _ H1 H2 eq_refl).
Defined.
